(** * Pressure-bump placement on a scanned sole: a shallow embedding of
      [generate_slippers.py]

    The script maps annotated 2D zones of a reference image onto a scanned
    sole, casts a vertical ray per sample point, places a dome at every hit
    and reports metrics.  Numbers that the script holds as floats are
    modelled by exact rationals ([Q]); the dome, whose vertices need [cos]
    and [sin], is modelled over the reals ([R]).  The mesh library
    (ray queries, export) and the polygon library (point containment) are
    not part of the script: they enter as fields of [Env]. *)

From Stdlib Require Import ZArith QArith Qround Qreals Reals Lra Lia.
From Stdlib Require Import List String Ascii Bool SpecFloat.
From stdpp Require Import gmap strings list fin_maps.

Open Scope Q_scope.

(* ===================================================================== *)
(** * Part I: definitions                                                  *)
(* ===================================================================== *)

(** ** Python and NumPy built-ins used by the script *)

(** [str.lower] on strings of ASCII characters; other characters, which
    Python folds by Unicode rules, are left as they are. *)
Definition lower_ascii (c : ascii) : ascii :=
  let n := nat_of_ascii c in
  if ((65 <=? n) && (n <=? 90))%nat then ascii_of_nat (n + 32) else c.

Fixpoint lower (s : string) : string :=
  match s with
  | EmptyString => EmptyString
  | String c s' => String (lower_ascii c) (lower s')
  end.

(** [old in s] for strings: some suffix of [s] starts with [old]. *)
Fixpoint str_contains (old s : string) : bool :=
  String.prefix old s ||
  match s with
  | EmptyString => false
  | String _ s' => str_contains old s'
  end.

(** [s.replace(old, new)] for a non-empty [old]: scan from the left, and at
    every position where [old] starts emit [new] and jump over [old].
    [skip] counts the characters of a matched [old] still to jump over. *)
Fixpoint replace_from (old new : string) (skip : nat) (s : string) : string :=
  match s with
  | EmptyString => EmptyString
  | String c s' =>
      match skip with
      | S k => replace_from old new k s'
      | O =>
          if String.prefix old s
          then String.append new
                 (replace_from old new (String.length old - 1) s')
          else String c (replace_from old new 0 s')
      end
  end.

Definition replace (old new s : string) : string := replace_from old new 0 s.

(** Strict comparison of floats. *)
Definition Qlt_bool (a b : Q) : bool := negb (Qle_bool b a).

(** [max(iterable)] over a first element [m] and the rest [l]: the running
    maximum is replaced only by a strictly greater element. *)
Fixpoint max_from (m : Q) (l : list Q) : Q :=
  match l with
  | [] => m
  | x :: l' => max_from (if Qlt_bool m x then x else m) l'
  end.

(** [min] along an axis, same scheme. *)
Fixpoint min_from (m : Q) (l : list Q) : Q :=
  match l with
  | [] => m
  | x :: l' => min_from (if Qlt_bool x m then x else m) l'
  end.

(** [np.argmax]: the index of the first maximal element. *)
Fixpoint argmax_from (best_i : nat) (best : Q) (i : nat) (l : list Q) : nat :=
  match l with
  | [] => best_i
  | x :: l' =>
      if Qlt_bool best x then argmax_from i x (S i) l'
      else argmax_from best_i best (S i) l'
  end.

Definition argmax (l : list Q) : nat :=
  match l with
  | [] => O
  | x :: l' => argmax_from 0 x 1 l'
  end.

(** [np.arange(start, stop, step)]: [ceil((stop - start) / step)] values
    [start + i * step], in exact arithmetic.  NumPy computes the quotient
    and the values in doubles ([np_arange_double] below); the two agree
    where that arithmetic is exact, as on polygons in whole pixels. *)
Definition arange_len (start stop step : Q) : nat :=
  Z.to_nat (Qceiling ((stop - start) / step)).

Definition arange (start stop step : Q) : list Q :=
  map (fun i : nat => start + inject_Z (Z.of_nat i) * step)
      (seq 0 (arange_len start stop step)).

(** ** Data model *)

Record Vec3 := mkVec3 { vx : Q; vy : Q; vz : Q }.

(** The sole mesh, as far as the script queries it: its bounding box and
    the ray query [mesh.ray.intersects_location(origin, direction)]. *)
Record Trimesh := {
  bounds : Vec3 * Vec3;
  intersects_location : Vec3 -> Vec3 -> list Vec3
}.

(** A [matplotlib.path.Path]: its vertex sequence. *)
Definition Path := list (Q * Q).

Record Category := { cat_id : Z; cat_name : string }.

(** An annotation; [segmentation] is [ann['segmentation'][0]] reshaped to
    rows of two. *)
Record Annotation := {
  ann_id : Z;
  category_id : Z;
  segmentation : list (Q * Q)
}.

Record Coco := {
  img_width : Q;
  img_height : Q;
  categories : list Category;
  annotations : list Annotation
}.

(** What the script takes from its surroundings: the loaded mesh, the
    loaded annotation document, the polygon library's containment test and
    whether the mesh library can export to a given file name (it derives
    the format from the extension and raises on an unknown one). *)
Record Env := {
  sole_model : Trimesh;
  coco_data : Coco;
  contains_point : Path -> Q * Q -> bool;
  can_export : string -> bool
}.

Inductive Message :=
| WarnZoneNotFound (zone : string)
| ErrNoMatchingCategories
| WarnNoCategory (ann : Z)
| WarnNoValidPoints (zone : string)
| WarnAnnotationFailed (ann : Z)
| ErrExportFailed (file : string).

(** ** Zone selection (lines 53-68) *)

Definition zone_name_to_ids (cats : list Category) : gmap string (list Z) :=
  fold_left
    (fun (m : gmap string (list Z)) cat =>
       let name := lower (cat_name cat) in
       <[name := default [] (m !! name) ++ [cat_id cat]]> m)
    cats ∅.

(** The loop over the requested names: the ids gathered and the warnings
    printed, in order. *)
Fixpoint resolve_zones (m : gmap string (list Z)) (zones : list string)
  : list Z * list Message :=
  match zones with
  | [] => ([], [])
  | zone :: rest =>
      let '(ids, warns) := resolve_zones m rest in
      match m !! zone with
      | Some l => (l ++ ids, warns)
      | None => (ids, WarnZoneNotFound zone :: warns)
      end
  end.

Definition selected_ids_of (m : gmap string (list Z)) (zones : list string)
  : list Z := fst (resolve_zones m zones).

(** [zone in zone_name_to_ids] *)
Definition known (m : gmap string (list Z)) (zone : string) : bool :=
  match m !! zone with Some _ => true | None => false end.

Definition is_empty {A} (l : list A) : bool :=
  match l with [] => true | _ => false end.

(** [if not selected_ids and selected_zones] *)
Definition no_match (selected_ids : list Z) (selected_zones : list string)
  : bool := is_empty selected_ids && negb (is_empty selected_zones).

(** The guard at the head of the annotation loop:
    [if selected_ids and ann['category_id'] not in selected_ids: continue] *)
Definition skipped (selected_ids : list Z) (ann : Annotation) : bool :=
  negb (is_empty selected_ids) &&
  negb (existsb (Z.eqb (category_id ann)) selected_ids).

(** ** Coordinate mapping (lines 70-80, 238-239) *)

Record Mapper := {
  origin_x : Q;
  origin_y : Q;
  x_scale : Q;
  y_scale : Q;
  height_px : Q
}.

Definition mapper_of (mesh : Trimesh) (coco : Coco) : Mapper :=
  let lo := fst (bounds mesh) in
  let hi := snd (bounds mesh) in
  {| origin_x := vx lo + 10;
     origin_y := vy lo + 10;
     x_scale := (vx hi - vx lo) / img_width coco;
     y_scale := (vy hi - vy lo) / img_height coco;
     height_px := img_height coco |}.

Definition map_2d_to_3d (mp : Mapper) (x y : Q) : Q * Q :=
  (origin_x mp + x * x_scale mp,
   origin_y mp + (height_px mp - y) * y_scale mp).

(** The inverse used by the mapping-accuracy metric. *)
Definition map_3d_to_2d (mp : Mapper) (x3d y3d : Q) : Q * Q :=
  ((x3d - origin_x mp) / x_scale mp,
   height_px mp - (y3d - origin_y mp) / y_scale mp).

(** ** Bump parameters (lines 101-104) *)

Definition step : Q := 5.
Definition z_offset : Q := 0.01.
Definition ray_clearance : Q := 10.

(** ** Colours (lines 106-139) *)

Definition Color := (Z * Z * Z * Z)%type.

Definition default_color : Color := (128, 128, 128, 255)%Z.

Definition zone_color_map : list (string * Color) :=
  [ ("adrenal_gland", (255, 165, 0, 255));
    ("appendix", (139, 69, 19, 255));
    ("ascending_colon", (153, 102, 51, 255));
    ("bladder", (255, 215, 0, 255));
    ("brain_stem", (128, 0, 128, 255));
    ("descending_colon", (139, 69, 19, 255));
    ("duodenum", (210, 105, 30, 255));
    ("ear", (255, 192, 203, 255));
    ("eye", (0, 191, 255, 255));
    ("gall_bladder", (50, 205, 50, 255));
    ("head_brain", (147, 112, 219, 255));
    ("heart", (255, 0, 0, 255));
    ("anus", (139, 0, 0, 255));
    ("kidney", (205, 92, 92, 255));
    ("liver", (165, 42, 42, 255));
    ("lungs", (135, 206, 235, 255));
    ("neck", (255, 228, 196, 255));
    ("pancreas", (255, 140, 0, 255));
    ("pituitary_gland", (255, 105, 180, 255));
    ("rectum", (128, 0, 0, 255));
    ("sex_gland", (199, 21, 133, 255));
    ("sinus", (173, 216, 230, 255));
    ("small_intestine", (244, 164, 96, 255));
    ("solar_plexus", (255, 255, 0, 255));
    ("spleen", (220, 20, 60, 255));
    ("stomach", (240, 128, 128, 255));
    ("thyroid", (0, 128, 128, 255));
    ("trapezoid", (238, 130, 238, 255));
    ("transverse_colon", (160, 82, 45, 255));
    ("ureter", (218, 165, 32, 255));
    ("default", default_color) ]%string%Z.

(** [zone_color_map.get(zone_name, zone_color_map["default"])] *)
Definition color_of (zone_name : string) : Color :=
  match find (fun kv => String.eqb (fst kv) zone_name) zone_color_map with
  | Some kv => snd kv
  | None => default_color
  end.

(** ** Placement state (lines 141-154) *)

(** A placed bump: the dome of fixed radii, the translation applied to it
    and its colour. *)
Record Bump := {
  translation : Vec3;
  vertex_colors : Color
}.

(** The counters and collections the loop updates.  [spikes] lists the
    bumps appended after the sole itself.  The per-hit positional error is
    a Euclidean norm that feeds only its own mean and deviation; it is left
    out, as is the spacing statistic computed from the same norm. *)
Record State := {
  spikes : list Bump;
  spike_count : nat;
  ray_casting_attempts : nat;
  ray_casting_successes : nat;
  bump_locations : list Vec3;
  zone_bumps : gmap string nat;
  zone_paths : gmap string Path;
  stderr : list Message
}.

Definition initial_state (m : gmap string (list Z)) : State :=
  {| spikes := [];
     spike_count := 0;
     ray_casting_attempts := 0;
     ray_casting_successes := 0;
     bump_locations := [];
     zone_bumps := (fun _ => O) <$> m;
     zone_paths := ∅;
     stderr := [] |}.

Definition warn (msg : Message) (st : State) : State :=
  {| spikes := spikes st;
     spike_count := spike_count st;
     ray_casting_attempts := ray_casting_attempts st;
     ray_casting_successes := ray_casting_successes st;
     bump_locations := bump_locations st;
     zone_bumps := zone_bumps st;
     zone_paths := zone_paths st;
     stderr := stderr st ++ [msg] |}.

Definition set_zone_path (zone_name : string) (path : Path) (st : State)
  : State :=
  {| spikes := spikes st;
     spike_count := spike_count st;
     ray_casting_attempts := ray_casting_attempts st;
     ray_casting_successes := ray_casting_successes st;
     bump_locations := bump_locations st;
     zone_bumps := zone_bumps st;
     zone_paths := <[zone_name := path]> (zone_paths st);
     stderr := stderr st |}.

(** ** Surface location (lines 184-192) *)

Definition down : Vec3 := mkVec3 0 0 (-1).

Definition ray_origin (top_z x3d y3d : Q) : Vec3 :=
  mkVec3 x3d y3d (top_z + ray_clearance).

(** [len(locations) == 0] gives no surface point.  Otherwise [z3d] is the
    [max] of the z coordinates and [loc] the intersection at [np.argmax] of
    them. *)
Definition surface_point (locations : list Vec3) : option (Q * Vec3) :=
  match locations with
  | [] => None
  | l0 :: ls =>
      Some (max_from (vz l0) (map vz ls),
            nth (argmax (map vz locations)) locations l0)
  end.

(** ** One sample point (lines 181-206) *)

Definition miss (st : State) : State :=
  {| spikes := spikes st;
     spike_count := spike_count st;
     ray_casting_attempts := S (ray_casting_attempts st);
     ray_casting_successes := ray_casting_successes st;
     bump_locations := bump_locations st;
     zone_bumps := zone_bumps st;
     zone_paths := zone_paths st;
     stderr := stderr st |}.

Definition hit (zone_name : string) (color : Color)
    (x3d y3d z3d : Q) (loc : Vec3) (st : State) : State :=
  {| spikes := spikes st ++
       [ {| translation := mkVec3 x3d y3d (z3d + z_offset);
            vertex_colors := color |} ];
     spike_count := S (spike_count st);
     ray_casting_attempts := S (ray_casting_attempts st);
     ray_casting_successes := S (ray_casting_successes st);
     bump_locations := bump_locations st ++ [loc];
     zone_bumps :=
       <[zone_name := S (default O (zone_bumps st !! zone_name))]>
         (zone_bumps st);
     zone_paths := zone_paths st;
     stderr := stderr st |}.

(** The body of the double loop; the second component is [valid_points]. *)
Definition sample (env : Env) (mp : Mapper) (top_z : Q)
    (zone_name : string) (color : Color) (path : Path)
    (acc : State * nat) (pt : Q * Q) : State * nat :=
  let '(st, valid_points) := acc in
  if contains_point env path pt then
    let '(x3d, y3d) := map_2d_to_3d mp (fst pt) (snd pt) in
    let locations :=
      intersects_location (sole_model env) (ray_origin top_z x3d y3d) down in
    match surface_point locations with
    | None => (miss st, S valid_points)
    | Some (z3d, loc) =>
        (hit zone_name color x3d y3d z3d loc st, S valid_points)
    end
  else (st, valid_points).

(** ** The sampling grid of one polygon (lines 175-180) *)

(** [np.min(seg, axis=0)] and [np.max(seg, axis=0)]; an empty array
    raises. *)
Definition bounding_box (seg : list (Q * Q)) : option ((Q * Q) * (Q * Q)) :=
  match seg with
  | [] => None
  | p :: seg' =>
      Some ((min_from (fst p) (map fst seg'), min_from (snd p) (map snd seg')),
            (max_from (fst p) (map fst seg'), max_from (snd p) (map snd seg')))
  end.

(** The grid points in the order of the double loop: [xi] outer, [yi]
    inner. *)
Definition grid (lo hi : Q * Q) (stp : Q) : list (Q * Q) :=
  flat_map (fun xi => map (fun yi => (xi, yi)) (arange (snd lo) (snd hi) stp))
           (arange (fst lo) (fst hi) stp).

(** ** One annotation (lines 156-211) *)

(** The first category with the annotation's id, lower-cased. *)
Definition zone_name_of (cats : list Category) (id : Z) : option string :=
  match find (fun cat => Z.eqb (cat_id cat) id) cats with
  | Some cat => Some (lower (cat_name cat))
  | None => None
  end.

(** [if not zone_name]: no category, or one with the empty name. *)
Definition usable_name (o : option string) : option string :=
  match o with
  | Some EmptyString => None
  | other => other
  end.

(** The [try] block of the loop body. *)
Definition process_body (env : Env) (mp : Mapper) (top_z : Q)
    (st : State) (ann : Annotation) : State :=
  match usable_name
          (zone_name_of (categories (coco_data env)) (category_id ann)) with
  | None => warn (WarnNoCategory (ann_id ann)) st
  | Some zone_name =>
      let color := color_of zone_name in
      let path : Path := segmentation ann in
      let st1 := set_zone_path zone_name path st in
      match bounding_box (segmentation ann) with
      | None => warn (WarnAnnotationFailed (ann_id ann)) st1
      | Some (lo, hi) =>
          let '(st2, valid_points) :=
            fold_left (sample env mp top_z zone_name color path)
                      (grid lo hi step) (st1, O) in
          if Nat.eqb valid_points 0
          then warn (WarnNoValidPoints zone_name) st2
          else st2
      end
  end.

Definition process_annotation (env : Env) (mp : Mapper) (top_z : Q)
    (selected_ids : list Z) (st : State) (ann : Annotation) : State :=
  if skipped selected_ids ann then st
  else process_body env mp top_z st ann.

Definition top_z_of (mesh : Trimesh) : Q := vz (snd (bounds mesh)).

Definition placement (env : Env) (selected_ids : list Z) : State :=
  fold_left
    (process_annotation env (mapper_of (sole_model env) (coco_data env))
       (top_z_of (sole_model env)) selected_ids)
    (annotations (coco_data env))
    (initial_state (zone_name_to_ids (categories (coco_data env)))).

(** ** Metrics (lines 213-247) *)

Definition percent (part whole : nat) : Q :=
  inject_Z (Z.of_nat part) / inject_Z (Z.of_nat whole) * 100.

Definition success_rate (st : State) : Q :=
  if (0 <? ray_casting_attempts st)%nat
  then percent (ray_casting_successes st) (ray_casting_attempts st)
  else 0.

(** The inner loop of the mapping-accuracy metric: some stored path
    contains the re-projected location. *)
Definition in_some_zone (env : Env) (mp : Mapper) (paths : gmap string Path)
    (loc : Vec3) : bool :=
  existsb (fun kv : string * Path =>
             contains_point env (snd kv) (map_3d_to_2d mp (vx loc) (vy loc)))
          (map_to_list paths).

Definition correct_placements (env : Env) (mp : Mapper) (st : State) : nat :=
  length (List.filter (in_some_zone env mp (zone_paths st))
                      (bump_locations st)).

Definition placement_accuracy (env : Env) (mp : Mapper) (st : State) : Q :=
  if (0 <? spike_count st)%nat
  then percent (correct_placements env mp st) (spike_count st)
  else 0.

Record Report := {
  report_success_rate : Q;
  report_mapping_accuracy : Q;
  report_zone_bumps : gmap string nat;
  report_total_bumps : nat
}.

Definition report_of (env : Env) (st : State) : Report :=
  {| report_success_rate := success_rate st;
     report_mapping_accuracy :=
       placement_accuracy env (mapper_of (sole_model env) (coco_data env)) st;
     report_zone_bumps := filter (fun kv => (0 < snd kv)%nat) (zone_bumps st);
     report_total_bumps := spike_count st |}.

(** ** Export (lines 249-259) *)

(** The combined mesh: the sole followed by the bumps, in order. *)
Record Combined := { pieces : list Bump }.

(** The files on disk: what was last exported to each path. *)
Abbreviation Files := (gmap string Combined).

Definition stl_output_of (output_file : string) : string :=
  replace ".ply" ".stl" output_file.

(** The [try] block: export to [output_file], then to [stl_output]; the
    first export that raises ends the block.  The result is the files on
    disk, the paths written in order and whether the block completed. *)
Definition export_step (env : Env) (combined : Combined)
    (output_file : string) (files : Files) : Files * list string * bool :=
  if can_export env output_file then
    let files1 := <[output_file := combined]> files in
    let stl_output := stl_output_of output_file in
    if can_export env stl_output
    then (<[stl_output := combined]> files1, [output_file; stl_output], true)
    else (files1, [output_file], false)
  else (files, [], false).

(** ** The whole run *)

Record Result := {
  exit_code : Z;
  files_after : Files;
  written : list string;
  messages : list Message;
  final_state : option State;
  report : option Report
}.

(** [args_zones] are the positional arguments as typed; [output_file] is
    [args.output] or the default name. *)
Definition run (env : Env) (args_zones : list string) (output_file : string)
    (files : Files) : Result :=
  let selected_zones := map lower args_zones in
  let m := zone_name_to_ids (categories (coco_data env)) in
  let '(selected_ids, warns) := resolve_zones m selected_zones in
  if no_match selected_ids selected_zones then
    {| exit_code := 1; files_after := files; written := [];
       messages := warns ++ [ErrNoMatchingCategories];
       final_state := None; report := None |}
  else
    let st := placement env selected_ids in
    let '(files', paths, ok) :=
      export_step env {| pieces := spikes st |} output_file files in
    if ok then
      {| exit_code := 0; files_after := files'; written := paths;
         messages := warns ++ stderr st;
         final_state := Some st; report := Some (report_of env st) |}
    else
      {| exit_code := 1; files_after := files'; written := paths;
         messages := warns ++ stderr st ++ [ErrExportFailed output_file];
         final_state := Some st; report := None |}.

(** ** The dome (lines 82-99, 198-199) *)

Definition Point := (R * R * R)%type.

Record Mesh := {
  vertices : list Point;
  faces : list (nat * nat * nat)
}.

(** [np.linspace(start, stop, num)], end point included. *)
Definition linspace (start stop : R) (num : nat) : list R :=
  map (fun i : nat => (start + INR i * ((stop - start) / INR (num - 1)))%R)
      (seq 0 num).

(** [np.meshgrid(u, v)] flattened: one row per [v], one column per [u]. *)
Definition dome_vertices (rx ry rz : R) (sections stacks : nat) : list Point :=
  flat_map
    (fun v =>
       map (fun u => (rx * cos u * sin v, ry * sin u * sin v, rz * cos v)%R)
           (linspace 0 (2 * PI) sections))
    (linspace 0 (PI / 2) stacks).

Definition dome_faces (sections stacks : nat) : list (nat * nat * nat) :=
  flat_map
    (fun i =>
       flat_map
         (fun j =>
            let p0 := (i * sections + j)%nat in
            let p1 := (p0 + 1)%nat in
            let p2 := (p0 + sections)%nat in
            let p3 := (p2 + 1)%nat in
            [(p0, p2, p1); (p1, p2, p3)])
         (seq 0 (sections - 1)))
    (seq 0 (stacks - 1)).

(** The vertex and face arrays that [create_ellipsoid_bump] builds and
    hands to [trimesh.Trimesh].  The library then merges coinciding
    vertices (the apex row, the seam), so the vertices of the mesh it
    returns are among these. *)
Definition create_ellipsoid_bump (rx ry rz : R) (sections stacks : nat)
  : Mesh :=
  {| vertices := dome_vertices rx ry rz sections stacks;
     faces := dome_faces sections stacks |}.

Definition apply_translation (t : Point) (m : Mesh) : Mesh :=
  {| vertices :=
       map (fun p : Point =>
              let '(tx, ty, tz) := t in
              let '(x, y, z) := p in
              (x + tx, y + ty, z + tz)%R)
           (vertices m);
     faces := faces m |}.

Definition bump_radius : R := 2.5%R.
Definition bump_height : R := 4.0%R.

(** The mesh of a placed bump: the default dome ([sections=20],
    [stacks=10]) moved by the bump's translation. *)
Definition bump_mesh (b : Bump) : Mesh :=
  let t := translation b in
  apply_translation (Q2R (vx t), Q2R (vy t), Q2R (vz t))
    (create_ellipsoid_bump bump_radius bump_radius bump_height 20 10).

Definition z_of (p : Point) : R := snd p.

(** ** A concrete surrounding, for evaluating the script *)

(** A flat slab [0,w] x [0,h] x [0,top]: a vertical ray over the footprint
    meets the bottom and the top face, any other ray meets nothing. *)
Definition slab (w h top : Q) : Trimesh :=
  {| bounds := (mkVec3 0 0 0, mkVec3 w h top);
     intersects_location := fun origin _ =>
       if Qle_bool 0 (vx origin) && Qle_bool (vx origin) w &&
          Qle_bool 0 (vy origin) && Qle_bool (vy origin) h
       then [mkVec3 (vx origin) (vy origin) 0;
             mkVec3 (vx origin) (vy origin) top]
       else [] |}.

(** Even-odd containment: the parity of the polygon edges that a ray from
    the point towards +x crosses. *)
Definition crosses (p a b : Q * Q) : bool :=
  xorb (Qlt_bool (snd p) (snd a)) (Qlt_bool (snd p) (snd b)) &&
  Qlt_bool (fst p)
    (fst a + (snd p - snd a) * (fst b - fst a) / (snd b - snd a)).

Fixpoint crossings (p : Q * Q) (first prev : Q * Q) (rest : list (Q * Q))
  : bool :=
  match rest with
  | [] => crosses p prev first
  | q :: rest' => xorb (crosses p prev q) (crossings p first q rest')
  end.

Definition even_odd (path : Path) (p : Q * Q) : bool :=
  match path with
  | [] => false
  | a :: rest => crossings p a a rest
  end.

(** A diamond of half-width 6 centred at [(cx, 6)]. *)
Definition diamond (cx : Q) : list (Q * Q) :=
  [(cx - 6, 6); (cx, 0); (cx + 6, 6); (cx, 12)].

Definition demo_env (w h : Q) (coco : Coco) : Env :=
  {| sole_model := slab w h 5;
     coco_data := coco;
     contains_point := even_odd;
     can_export := fun _ => true |}.

(** One zone, one polygon, on a 12 x 12 image. *)
Definition one_zone : Coco :=
  {| img_width := 12; img_height := 12;
     categories := [ {| cat_id := 1; cat_name := "Heart" |} ];
     annotations :=
       [ {| ann_id := 1; category_id := 1; segmentation := diamond 6 |} ] |}.

(** One zone drawn as two separate polygons, on a 40 x 12 image. *)
Definition two_polygons : Coco :=
  {| img_width := 40; img_height := 12;
     categories := [ {| cat_id := 1; cat_name := "Heart" |} ];
     annotations :=
       [ {| ann_id := 1; category_id := 1; segmentation := diamond 6 |};
         {| ann_id := 2; category_id := 1; segmentation := diamond 26 |} ] |}.

(** ** Bump spacing (lines 218-231) *)

(** [np.linalg.norm] of the difference of two locations. *)
Definition distance (a b : Vec3) : R :=
  sqrt ((Q2R (vx a) - Q2R (vx b)) ^ 2 + (Q2R (vy a) - Q2R (vy b)) ^ 2 +
        (Q2R (vz a) - Q2R (vz b)) ^ 2).

(** The body of the inner loop over [j]; [None] stands for
    [float('inf')]. *)
Definition nearer (i : nat) (loc_i : Vec3) (min_distance : option R)
    (jl : nat * Vec3) : option R :=
  if Nat.eqb i (fst jl) then min_distance
  else
    let d := distance loc_i (snd jl) in
    if Rlt_dec 0 d then
      match min_distance with
      | None => Some d
      | Some m => if Rlt_dec d m then Some d else Some m
      end
    else min_distance.

(** [enumerate]: the elements with their indices. *)
Definition indexed {A} (l : list A) : list (nat * A) :=
  combine (seq 0 (length l)) l.

(** The inner loop for bump [i]. *)
Definition min_distance_of (locs : list Vec3) (i : nat) (loc_i : Vec3)
  : option R :=
  fold_left (nearer i loc_i) (indexed locs) None.

(** The outer loop: one entry per bump whose [min_distance] left
    infinity. *)
Definition bump_spacing (locs : list Vec3) : list R :=
  if (1 <? length locs)%nat
  then omap (fun il => min_distance_of locs (fst il) (snd il)) (indexed locs)
  else [].

(** [np.mean] and [np.std] of a non-empty sequence. *)
Definition np_mean (l : list R) : R :=
  (fold_right Rplus 0 l / INR (length l))%R.

Definition np_std (l : list R) : R :=
  sqrt (np_mean (map (fun x => (x - np_mean l) ^ 2)%R l)).

Definition avg_spacing (st : State) : R :=
  match bump_spacing (bump_locations st) with
  | [] => Q2R step
  | spacing => np_mean spacing
  end.

Definition std_spacing (st : State) : R :=
  match bump_spacing (bump_locations st) with
  | [] => 0%R
  | spacing => np_std spacing
  end.

(** ** Quantities used to state properties of the run *)

(** The annotations that pass the loop guard and have a usable zone name,
    each with that name, in document order. *)
Definition processed_polygons (env : Env) (selected_ids : list Z)
  : list (string * Path) :=
  flat_map
    (fun ann =>
       if skipped selected_ids ann then []
       else
         match usable_name
                 (zone_name_of (categories (coco_data env))
                    (category_id ann)) with
         | Some zone_name => [(zone_name, segmentation ann)]
         | None => []
         end)
    (annotations (coco_data env)).

(** [zone_paths[zone_name] = path], for a name and polygon paired. *)
Definition store_path (m : gmap string Path) (kv : string * Path)
  : gmap string Path := <[fst kv := snd kv]> m.

(** The sum of the counts of a per-zone table. *)
Definition total_count (m : gmap string nat) : nat :=
  map_fold (fun _ n acc => (n + acc)%nat) O m.

(** A mesh whose ray query returns points of the ray's own vertical
    line. *)
Definition vertical_hits (mesh : Trimesh) : Prop :=
  forall origin direction loc,
    In loc (intersects_location mesh origin direction) ->
    vx loc = vx origin /\ vy loc = vy origin.

(** The categories bearing a lower-cased name. *)
Definition named (name : string) (cat : Category) : bool :=
  String.eqb (lower (cat_name cat)) name.

(** [str.upper] on strings of ASCII characters; other characters, which
    Python maps by Unicode rules, are left as they are. *)
Definition upper_ascii (c : ascii) : ascii :=
  let n := nat_of_ascii c in
  if ((97 <=? n) && (n <=? 122))%nat then ascii_of_nat (n - 32) else c.

Fixpoint upper (s : string) : string :=
  match s with
  | EmptyString => EmptyString
  | String c s' => String (upper_ascii c) (upper s')
  end.

(** ** Positional error (lines 193-197, 215-216) *)





(** ** The request handler ([app.py]) *)

Definition LEFT_FOOT_STL : string := "Shoe_Sole_UK_8_Left.stl".
Definition RIGHT_FOOT_STL : string := "Shoe_Sole_UK_8_Right.stl".
Definition GENERATED_STL_BASE_FILENAME : string := "sole_with_spikes".

Definition reserved_names : list string :=
  ["LEFT_FOOT_ORGANS"; "RIGHT_FOOT_ORGANS"]%string.

(** The set comprehension of [load_valid_zone_keys] (line 34) over the
    categories of a zone file, each of which has a name. *)
Definition valid_zone_keys (cats : list Category) : gset string :=
  list_to_set
    (List.filter (fun key => negb (existsb (String.eqb key) reserved_names))
                 (map (fun cat => upper (cat_name cat)) cats)).

(** The submitted form: [getlist('areas')], [get('foot')], [get('size')]. *)
Record Form := {
  areas : list string;
  foot : option string;
  size : option string
}.

(** How [subprocess.run(..., check=True)] ends: the script could not be
    started, or it ran and left a result. *)
Inductive Launch :=
| NotStarted
| Exited (result : Result).

(** What the handler takes from its surroundings: the key sets loaded at
    start-up ([None] when loading failed), whether an input file exists,
    and the script, called with foot, input, output and zone names. *)
Record Server := {
  valid_keys_left : option (gset string);
  valid_keys_right : option (gset string);
  stl_exists : string -> bool;
  script : string -> string -> string -> list string -> Files -> Launch
}.

Inductive Reply :=
| ConfigError
| NoAreas
| BadFoot
| NoSize
| NoKnownZone (unknown : list string)
| StlNotFound (target_foot : string)
| ScriptNotFound
| GenerationFailed
| OutputMissing
| Generated (filename : string) (zones : list string).


(** The loop over the submitted values (lines 82-89): the accepted keys,
    without repetition, and the rejected values. *)
Fixpoint map_areas (valid : gset string) (html_values : list string)
    (zones unknown : list string) : list string * list string :=
  match html_values with
  | [] => (zones, unknown)
  | html_val :: rest =>
      let key := upper html_val in
      if decide (key ∈ valid) then
        if existsb (String.eqb key) zones
        then map_areas valid rest zones unknown
        else map_areas valid rest (zones ++ [key]) unknown
      else map_areas valid rest zones (unknown ++ [html_val])
  end.

Definition is_left (foot : string) : bool := String.eqb foot "left".

Definition output_filename (target_foot : string) : string :=
  String.append GENERATED_STL_BASE_FILENAME
    (String.append "_" (String.append target_foot ".ply")).

(** The handler of [POST /generate_slippers] (lines 53-152): the reply and
    the files on disk afterwards. *)
Definition generate_slippers (srv : Server) (form : Form) (files : Files)
  : Reply * Files :=
  match valid_keys_left srv, valid_keys_right srv with
  | Some keys_left, Some keys_right =>
      if is_empty (areas form) then (NoAreas, files)
      else
        match foot form with
        | None => (BadFoot, files)
        | Some selected_foot =>
            if negb (String.eqb selected_foot "left" ||
                     String.eqb selected_foot "right")
            then (BadFoot, files)
            else
              match size form with
              | None | Some EmptyString => (NoSize, files)
              | Some _ =>
                  let valid :=
                    if is_left selected_foot then keys_left else keys_right in
                  let '(zones, unknown) :=
                    map_areas valid (areas form) [] [] in
                  if is_empty zones then (NoKnownZone unknown, files)
                  else
                    let target_foot := lower selected_foot in
                    let input_stl :=
                      if is_left target_foot
                      then LEFT_FOOT_STL else RIGHT_FOOT_STL in
                    if negb (stl_exists srv input_stl)
                    then (StlNotFound target_foot, files)
                    else
                      let filename := output_filename target_foot in
                      match script srv target_foot input_stl filename
                              zones files with
                      | NotStarted => (ScriptNotFound, files)
                      | Exited r =>
                          if Z.eqb (exit_code r) 0 then
                            match files_after r !! filename with
                            | Some _ => (Generated filename zones,
                                         files_after r)
                            | None => (OutputMissing, files_after r)
                            end
                          else (GenerationFailed, files_after r)
                      end
              end
        end
  | _, _ => (ConfigError, files)
  end.

(** The result of a script that [argparse] stopped: exit code 2, nothing
    done. *)
Definition usage_error (files : Files) : Result :=
  {| exit_code := 2; files_after := files; written := [];
     messages := []; final_state := None; report := None |}.

(** A server whose key sets come from the zone files that the script
    itself loads, and whose script is the run of [generate_slippers.py] in
    the surroundings of the chosen foot.  [parse_zones] is what [argparse]
    makes of the zone arguments: the positional list, or [None] when it
    exits with a usage error (as for an argument it reads as an unknown
    option). *)
Definition server_of (env_left env_right : Env) (exists_stl : string -> bool)
    (parse_zones : list string -> option (list string)) : Server :=
  {| valid_keys_left :=
       Some (valid_zone_keys (categories (coco_data env_left)));
     valid_keys_right :=
       Some (valid_zone_keys (categories (coco_data env_right)));
     stl_exists := exists_stl;
     script := fun target_foot _ filename zones files =>
       match parse_zones zones with
       | None => Exited (usage_error files)
       | Some args_zones =>
           Exited (run (if is_left target_foot then env_left else env_right)
                       args_zones filename files)
       end |}.

(** ** The ray-casting demo ([test.py]) *)

(** [load_coco_annotations]: one polygon per category id, and the image
    size. *)
Definition load_coco_annotations (coco : Coco) : gmap Z Path * Q * Q :=
  (fold_left
     (fun (polygons : gmap Z Path) ann =>
        <[category_id ann := segmentation ann]> polygons)
     (annotations coco) ∅,
   img_width coco, img_height coco).

(** The demo's mapping of an image point to a ray origin (lines 21-31). *)
Definition demo_ray_origin (mesh : Trimesh) (w h : Q) (pt : Q * Q) : Vec3 :=
  let lo := fst (bounds mesh) in
  let hi := snd (bounds mesh) in
  let x_scale := (vx hi - vx lo) / w in
  let y_scale := (vy hi - vy lo) / h in
  mkVec3 (fst pt * x_scale + vx lo)
         ((h - snd pt) * y_scale + vy lo)
         (vz hi + 10).

(** The locations that [ray_casting] gets back: [first_hit] is the ray
    query with [multiple_hits=False], at most one location per ray. *)
Definition demo_locations (first_hit : Vec3 -> Vec3 -> option Vec3)
    (mesh : Trimesh) (points_2d : list (Q * Q)) (w h : Q) : list Vec3 :=
  omap (fun pt => first_hit (demo_ray_origin mesh w h pt) down) points_2d.

(** [ray_casting], up to the success rate.  With no point the ray query
    itself raises, which [None] stands for; the guard of line 44 is then
    never reached with an empty list. *)
Definition demo_success_rate (first_hit : Vec3 -> Vec3 -> option Vec3)
    (mesh : Trimesh) (points_2d : list (Q * Q)) (w h : Q) : option Q :=
  if is_empty points_2d then None
  else
    Some (if (0 <? length points_2d)%nat
          then percent (length (demo_locations first_hit mesh points_2d w h))
                       (length points_2d)
          else 0).

(** ** The sample points of a run *)

(** The intersections found for the ray of one sample point: cast from
    above the mapped point, straight down. *)
Definition cast_ray (env : Env) (mp : Mapper) (top_z : Q) (pt : Q * Q)
  : list Vec3 :=
  intersects_location (sole_model env)
    (ray_origin top_z (fst (map_2d_to_3d mp (fst pt) (snd pt)))
                      (snd (map_2d_to_3d mp (fst pt) (snd pt))))
    down.

(** The sample points of one annotation: none if the guard skips it, if it
    has no usable zone name or if its polygon is empty; otherwise the grid
    points that its path contains, in loop order. *)
Definition annotation_samples (env : Env) (selected_ids : list Z)
    (ann : Annotation) : list (Q * Q) :=
  if skipped selected_ids ann then []
  else
    match usable_name
            (zone_name_of (categories (coco_data env)) (category_id ann)) with
    | None => []
    | Some _ =>
        match bounding_box (segmentation ann) with
        | None => []
        | Some (lo, hi) =>
            List.filter (contains_point env (segmentation ann))
                        (grid lo hi step)
        end
    end.

(** All sample points of the run, in processing order. *)
Definition sample_points (env : Env) (selected_ids : list Z)
  : list (Q * Q) :=
  flat_map (annotation_samples env selected_ids)
           (annotations (coco_data env)).

(** The ray of a sample point meets the mesh. *)
Definition ray_hits (env : Env) (mp : Mapper) (top_z : Q) (pt : Q * Q)
  : bool := negb (is_empty (cast_ray env mp top_z pt)).


(** ** Polygons in whole pixels *)

(** A polygon whose vertices are whole pixels.  On such a polygon, with
    coordinates of magnitude at most [2^50], every value that [np.arange]
    computes with the step 5.0 (the difference of the box edges, its
    quotient by the step, the multiples of the step) is a whole number
    below [2^53] or a quotient that rounding cannot carry onto a whole
    number, so the double arithmetic of NumPy and the exact arithmetic of
    [arange] agree. *)
Definition pixels (zseg : list (Z * Z)) : list (Q * Q) :=
  map (fun p => (inject_Z (fst p), inject_Z (snd p))) zseg.

Definition in_double_range (z : Z) : Prop := (Z.abs z <= 2 ^ 50)%Z.

Definition whole_pixels (zseg : list (Z * Z)) : Prop :=
  Forall (fun p => in_double_range (fst p) /\ in_double_range (snd p)) zseg.


(** ** [np.arange] in double precision *)

(** The double nearest to a whole number, and to a quotient of whole
    numbers: what NumPy holds for an integer and for a decimal of the
    annotation file. *)
Definition double_of_Z (z : Z) : spec_float :=
  binary_normalize 53 1024 z 0 false.

Definition double_of_Q (q : Q) : spec_float :=
  SFdiv 53 1024 (double_of_Z (Qnum q)) (double_of_Z (Zpos (Qden q))).

(** The rational that a finite double stands for. *)
Definition Q_of_double (f : spec_float) : Q :=
  match f with
  | S754_finite s m e =>
      (if s then -1 else 1) * inject_Z (Zpos m) * Qpower 2 e
  | _ => 0
  end.

(** [np.arange(start, stop, step)] as NumPy computes it on doubles: the
    length is the ceiling of the rounded quotient, the first two values
    are [start] and [start + step], and value [i] is [start + i * delta]
    with [delta] the difference of the first two. *)
Definition np_arange_double (start stop stp : spec_float) : list spec_float :=
  let n :=
    Z.to_nat
      (Qceiling
         (Q_of_double (SFdiv 53 1024 (SFsub 53 1024 stop start) stp))) in
  let delta := SFsub 53 1024 (SFadd 53 1024 start stp) start in
  map (fun i : nat =>
         match i with
         | O => start
         | S O => SFadd 53 1024 start stp
         | _ => SFadd 53 1024 start
                  (SFmul 53 1024 (double_of_Z (Z.of_nat i)) delta)
         end)
      (seq 0 n).

(** ** Plain names *)

(** A string of ASCII characters other than NUL: on such strings
    [str.lower] and [str.upper] are the functions [lower] and [upper],
    and the string can be passed as a command-line argument. *)
Fixpoint plain (s : string) : bool :=
  match s with
  | EmptyString => true
  | String c s' =>
      let n := nat_of_ascii c in
      ((0 <? n) && (n <? 128))%nat && plain s'
  end.



(* ===================================================================== *)
(** * Part II: properties                                                  *)
(* ===================================================================== *)

(** ** Strings *)

Lemma replace_absent (old new s : string) :
  str_contains old s = false -> replace old new s = s.
Proof.
  unfold replace. induction s as [|c s' IH]; intros H; [reflexivity|].
  cbn [str_contains] in H. apply orb_false_elim in H as [Hp Hs].
  cbn [replace_from]. rewrite Hp, (IH Hs). reflexivity.
Qed.

(** ** Zone selection *)

Lemma zone_name_to_ids_nonempty (cats : list Category) (name : string)
    (ids : list Z) :
  zone_name_to_ids cats !! name = Some ids -> ids <> [].
Proof.
  unfold zone_name_to_ids.
  assert (G : forall (m0 : gmap string (list Z)),
             (forall k l, m0 !! k = Some l -> l <> []) ->
             forall k l,
               fold_left
                 (fun (m : gmap string (list Z)) cat =>
                    let name := lower (cat_name cat) in
                    <[name := default [] (m !! name) ++ [cat_id cat]]> m)
                 cats m0 !! k = Some l -> l <> []).
  { induction cats as [|cat cats IH]; intros m0 Hm0 k l; cbn [fold_left].
    - apply Hm0.
    - apply IH. intros k' l'. cbn zeta.
      destruct (decide (lower (cat_name cat) = k')) as [->|Hne].
      + rewrite lookup_insert_eq. intros [= <-] E.
        apply app_eq_nil in E as [_ E]. discriminate E.
      + rewrite lookup_insert_ne by assumption. apply Hm0. }
  apply G. intros k l. rewrite lookup_empty. discriminate.
Qed.

Lemma resolve_zones_warnings (m : gmap string (list Z)) (zones : list string) :
  snd (resolve_zones m zones) =
  map WarnZoneNotFound (List.filter (fun z => negb (known m z)) zones).
Proof.
  induction zones as [|z zones IH]; [reflexivity|].
  cbn [resolve_zones List.filter]. unfold known at 1.
  destruct (resolve_zones m zones) as [ids warns]. cbn [snd] in IH.
  destruct (m !! z); cbn [negb snd map]; congruence.
Qed.

Lemma filter_unknown_all (m : gmap string (list Z)) (zones : list string) :
  (forall z, In z zones -> known m z = false) ->
  List.filter (fun z => negb (known m z)) zones = zones.
Proof.
  induction zones as [|z zones IH]; intros H; [reflexivity|].
  cbn [List.filter]. rewrite (H z) by (left; reflexivity).
  cbn [negb]. f_equal. apply IH. intros z' Hz'. apply H. right. assumption.
Qed.

Lemma resolve_zones_none (m : gmap string (list Z)) (zones : list string) :
  (forall z, In z zones -> m !! z = None) ->
  fst (resolve_zones m zones) = [].
Proof.
  induction zones as [|z zones IH]; intros H; [reflexivity|].
  cbn [resolve_zones].
  destruct (resolve_zones m zones) as [ids warns] eqn:E. cbn [fst] in IH.
  rewrite (H z) by (left; reflexivity). cbn [fst].
  apply IH. intros z' Hz'. apply H. right. assumption.
Qed.

Lemma resolve_zones_some (cats : list Category) (zones : list string)
    (z : string) :
  In z zones -> known (zone_name_to_ids cats) z = true ->
  fst (resolve_zones (zone_name_to_ids cats) zones) <> [].
Proof.
  induction zones as [|z0 zones IH]; intros Hin Hk; [destruct Hin|].
  cbn [resolve_zones].
  destruct (resolve_zones (zone_name_to_ids cats) zones) as [ids warns] eqn:E.
  cbn [fst] in IH.
  destruct (zone_name_to_ids cats !! z0) as [l|] eqn:El; cbn [fst].
  - apply zone_name_to_ids_nonempty in El.
    destruct l; [congruence | discriminate].
  - destruct Hin as [->|Hin]; [|auto].
    unfold known in Hk. rewrite El in Hk. discriminate.
Qed.

Lemma run_continues (env : Env) (args_zones : list string)
    (output_file : string) (files : Files) :
  no_match
    (selected_ids_of (zone_name_to_ids (categories (coco_data env)))
       (map lower args_zones))
    (map lower args_zones) = false ->
  final_state (run env args_zones output_file files) =
  Some (placement env
          (selected_ids_of (zone_name_to_ids (categories (coco_data env)))
             (map lower args_zones))).
Proof.
  unfold run, selected_ids_of.
  destruct (resolve_zones _ (map lower args_zones)) as [ids warns].
  cbn [fst]. intros ->.
  destruct (export_step env _ output_file files) as [[files' paths] ok].
  destruct ok; reflexivity.
Qed.

(** C1, as the script behaves: with no zone name on the command line the
    run does not abort, the loop guard skips no annotation, and the
    placement is the loop body applied to every annotation of the
    document. *)
Theorem C1_zero_names_process_all (env : Env) (output_file : string)
    (files : Files) :
  final_state (run env [] output_file files) = Some (placement env []) /\
  (forall ann, skipped [] ann = false) /\
  placement env [] =
  fold_left
    (process_body env (mapper_of (sole_model env) (coco_data env))
       (top_z_of (sole_model env)))
    (annotations (coco_data env))
    (initial_state (zone_name_to_ids (categories (coco_data env)))).
Proof.
  split; [|split].
  - apply (run_continues env [] output_file files). reflexivity.
  - reflexivity.
  - unfold placement.
    generalize (initial_state (zone_name_to_ids (categories (coco_data env)))).
    induction (annotations (coco_data env)) as [|ann anns IH]; intros st;
      [reflexivity|].
    cbn [fold_left]. exact (IH _).
Qed.

(** C1, as stated, fails: with no zone name supplied, the one annotation of
    [one_zone] is sampled, three rays are cast and three bumps placed. *)
Lemma C1_zero_names_counterexample :
  let r := run (demo_env 120 120 one_zone) [] "out.ply" ∅ in
  exit_code r = 0%Z /\
  option_map ray_casting_attempts (final_state r) = Some 3%nat /\
  option_map spike_count (final_state r) = Some 3%nat /\
  option_map (fun st => length (spikes st)) (final_state r) = Some 3%nat.
Proof. vm_compute. repeat split; reflexivity. Qed.

(** C8: every requested name that is not a key of the category map gives
    one warning, in order, and nothing else happens for it; when at least
    one requested name is a key the run goes on to the placement; when
    names were supplied and none is a key the run ends with exit code 1 and
    the no-matching-categories error, before any placement, with no file
    written. *)
Theorem C8_unknown_zone_names (env : Env) (args_zones : list string)
    (output_file : string) (files : Files) :
  (exists rest,
     messages (run env args_zones output_file files) =
     map WarnZoneNotFound
       (List.filter
          (fun z => negb (known (zone_name_to_ids (categories (coco_data env))) z))
          (map lower args_zones)) ++ rest) /\
  ((exists z, In z (map lower args_zones) /\
              known (zone_name_to_ids (categories (coco_data env))) z = true) ->
   final_state (run env args_zones output_file files) =
   Some (placement env
           (selected_ids_of (zone_name_to_ids (categories (coco_data env)))
              (map lower args_zones)))) /\
  (args_zones <> [] ->
   (forall z, In z (map lower args_zones) ->
              known (zone_name_to_ids (categories (coco_data env))) z = false) ->
   exit_code (run env args_zones output_file files) = 1%Z /\
   messages (run env args_zones output_file files) =
     map WarnZoneNotFound (map lower args_zones) ++ [ErrNoMatchingCategories] /\
   final_state (run env args_zones output_file files) = None /\
   report (run env args_zones output_file files) = None /\
   written (run env args_zones output_file files) = [] /\
   files_after (run env args_zones output_file files) = files).
Proof.
  split; [|split].
  - pose proof (resolve_zones_warnings
                  (zone_name_to_ids (categories (coco_data env)))
                  (map lower args_zones)) as Hw.
    unfold run.
    destruct (resolve_zones _ (map lower args_zones)) as [ids warns].
    cbn [snd] in Hw. rewrite <- Hw.
    destruct (no_match ids (map lower args_zones)).
    + eexists. reflexivity.
    + destruct (export_step env _ output_file files) as [[files' paths] ok].
      destruct ok; eexists; reflexivity.
  - intros (z & Hin & Hk). apply run_continues.
    pose proof (resolve_zones_some _ _ _ Hin Hk) as Hne.
    unfold selected_ids_of, no_match.
    destruct (fst (resolve_zones _ (map lower args_zones)));
      [congruence | reflexivity].
  - intros Hne Hnone.
    assert (Hids : fst (resolve_zones
                          (zone_name_to_ids (categories (coco_data env)))
                          (map lower args_zones)) = []).
    { apply resolve_zones_none. intros z Hz. specialize (Hnone z Hz).
      unfold known in Hnone.
      destruct (zone_name_to_ids (categories (coco_data env)) !! z);
        [discriminate | reflexivity]. }
    assert (Hw : snd (resolve_zones
                        (zone_name_to_ids (categories (coco_data env)))
                        (map lower args_zones)) =
                 map WarnZoneNotFound (map lower args_zones)).
    { rewrite resolve_zones_warnings, filter_unknown_all by assumption.
      reflexivity. }
    unfold run.
    destruct (resolve_zones _ (map lower args_zones)) as [ids warns].
    cbn [fst snd] in Hids, Hw. subst ids warns.
    destruct args_zones as [|a args]; [congruence|].
    cbn [map no_match is_empty andb negb].
    repeat split; reflexivity.
Qed.

Lemma C8_unknown_zone_names_witness :
  let r := run (demo_env 120 120 one_zone) ["Nose"%string] "out.ply" ∅ in
  exit_code r = 1%Z /\
  messages r = [WarnZoneNotFound "nose"; ErrNoMatchingCategories] /\
  final_state r = None /\ report r = None /\
  written r = [] /\ files_after r = ∅.
Proof.
  cbv zeta.
  destruct (C8_unknown_zone_names (demo_env 120 120 one_zone)
              ["Nose"%string] "out.ply" ∅) as (_ & _ & H).
  apply H.
  - discriminate.
  - intros z [<-|[]]. vm_compute. reflexivity.
Defined.

(** C10: when the output file name has no occurrence of [.ply], the second
    path equals the first; both exports then write that one path, the
    second over the first, and the files on disk afterwards are the files
    before plus at most that one path. *)
Theorem C10_same_path_without_ply (env : Env) (combined : Combined)
    (output_file : string) (files : Files) :
  str_contains ".ply" output_file = false ->
  stl_output_of output_file = output_file /\
  (can_export env output_file = true ->
   export_step env combined output_file files =
   (<[output_file := combined]> files, [output_file; output_file], true)) /\
  (can_export env output_file = false ->
   export_step env combined output_file files = (files, [], false)) /\
  dom (fst (fst (export_step env combined output_file files)))
    ⊆ {[output_file]} ∪ dom files.
Proof.
  intros H.
  assert (E : stl_output_of output_file = output_file)
    by (apply replace_absent; assumption).
  unfold export_step. rewrite E.
  destruct (can_export env output_file); cbn [fst].
  - rewrite insert_insert_eq. repeat split; try discriminate.
    rewrite dom_insert_L. set_solver.
  - repeat split; try discriminate. set_solver.
Qed.

Lemma C10_same_path_without_ply_witness :
  stl_output_of "sole.stl" = "sole.stl"%string /\
  export_step (demo_env 120 120 one_zone) {| pieces := [] |} "sole.stl" ∅ =
  (<["sole.stl"%string := {| pieces := [] |}]> ∅,
   ["sole.stl"%string; "sole.stl"%string], true).
Proof.
  destruct (C10_same_path_without_ply (demo_env 120 120 one_zone)
              {| pieces := [] |} "sole.stl" ∅) as (H1 & H2 & _).
  - reflexivity.
  - split; [exact H1 | apply H2; reflexivity].
Defined.

(** ** Comparisons and running extrema *)

Lemma Qlt_bool_true (a b : Q) : Qlt_bool a b = true -> a < b.
Proof.
  unfold Qlt_bool. intros H. apply negb_true_iff in H.
  apply Qnot_le_lt. intros Hle. apply Qle_bool_iff in Hle. congruence.
Qed.

Lemma Qlt_bool_false (a b : Q) : Qlt_bool a b = false -> b <= a.
Proof.
  unfold Qlt_bool. intros H. apply negb_false_iff in H.
  apply Qle_bool_iff. assumption.
Qed.

Lemma max_from_ge_init (l : list Q) : forall m, m <= max_from m l.
Proof.
  induction l as [|x l IH]; intros m; cbn [max_from]; [apply Qle_refl|].
  destruct (Qlt_bool m x) eqn:E; [|apply IH].
  eapply Qle_trans; [|apply IH]. apply Qlt_le_weak, Qlt_bool_true, E.
Qed.

Lemma max_from_ge_all (l : list Q) :
  forall m x, In x l -> x <= max_from m l.
Proof.
  induction l as [|y l IH]; intros m x Hin; [destruct Hin|].
  cbn [max_from]. destruct Hin as [<-|Hin]; [|apply IH, Hin].
  destruct (Qlt_bool m y) eqn:E; [apply max_from_ge_init|].
  eapply Qle_trans; [|apply max_from_ge_init]. apply Qlt_bool_false, E.
Qed.

(** ** The sampling grid *)

Lemma arange_length (start stop stp : Q) :
  length (arange start stop stp) =
  Z.to_nat (Qceiling ((stop - start) / stp)).
Proof. unfold arange. rewrite length_map, length_seq. reflexivity. Qed.

Lemma arange_half_open (start stop stp x : Q) :
  0 < stp -> In x (arange start stop stp) -> start <= x /\ x < stop.
Proof.
  intros Hs Hin. unfold arange in Hin.
  apply in_map_iff in Hin as (i & <- & Hi). apply in_seq in Hi as [_ Hi].
  cbn in Hi. unfold arange_len in Hi.
  assert (Hz : (Z.of_nat i <= Qceiling ((stop - start) / stp) - 1)%Z) by lia.
  rewrite Zle_Qle in Hz.
  pose proof (Qceiling_lt ((stop - start) / stp)) as Hc.
  assert (Hlt : inject_Z (Z.of_nat i) < (stop - start) / stp)
    by (eapply Qle_lt_trans; eassumption).
  assert (H0 : 0 <= inject_Z (Z.of_nat i))
    by (change 0 with (inject_Z 0); rewrite <- Zle_Qle; lia).
  split.
  - rewrite <- (Qplus_0_r start) at 1. apply Qplus_le_r.
    apply Qmult_le_0_compat; [assumption | apply Qlt_le_weak; assumption].
  - apply (Qmult_lt_compat_r _ _ stp Hs) in Hlt.
    assert (E : (stop - start) / stp * stp == stop - start)
      by (field; intros E0; rewrite E0 in Hs; discriminate).
    rewrite E in Hlt.
    apply (Qplus_lt_r _ _ start) in Hlt.
    assert (E2 : start + (stop - start) == stop) by ring.
    rewrite E2 in Hlt.
    assumption.
Qed.

(** The range stops only when the next value would reach [stop]. *)
Lemma arange_exhaustive (start stop stp : Q) :
  0 < stp -> start <= stop ->
  stop <= start + inject_Z (Z.of_nat (length (arange start stop stp))) * stp.
Proof.
  intros Hs Hle. rewrite arange_length.
  assert (E : (stop - start) / stp * stp == stop - start)
    by (field; intros E0; rewrite E0 in Hs; discriminate).
  assert (Hd : 0 <= (stop - start) / stp).
  { apply Qle_shift_div_l; [assumption|]. rewrite Qmult_0_l.
    apply (Qplus_le_r _ _ start).
    assert (E2 : start + (stop - start) == stop) by ring.
    rewrite E2, Qplus_0_r. assumption. }
  assert (Hc : (0 <= Qceiling ((stop - start) / stp))%Z).
  { rewrite <- (Qceiling_Z 0). apply Qceiling_resp_le. assumption. }
  rewrite Z2Nat.id by assumption.
  pose proof (Qle_ceiling ((stop - start) / stp)) as Hu.
  apply (Qmult_le_compat_r _ _ stp) in Hu; [|apply Qlt_le_weak; assumption].
  rewrite E in Hu. apply (Qplus_le_r _ _ start) in Hu.
  assert (E2 : start + (stop - start) == stop) by ring.
  rewrite E2 in Hu.
  assumption.
Qed.

(** Ceiling and floor agree exactly on whole quotients. *)
Lemma arange_length_exact (start stop stp : Q) (k : Z) :
  (stop - start) / stp == inject_Z k ->
  length (arange start stop stp) = Z.to_nat (Qfloor ((stop - start) / stp)).
Proof.
  intros E. rewrite arange_length.
  rewrite (Qceiling_comp _ _ E), (Qfloor_comp _ _ E), Qceiling_Z, Qfloor_Z.
  reflexivity.
Qed.

Lemma grid_length (lo hi : Q * Q) (stp : Q) :
  length (grid lo hi stp) =
  (length (arange (fst lo) (fst hi) stp) *
   length (arange (snd lo) (snd hi) stp))%nat.
Proof.
  unfold grid. induction (arange (fst lo) (fst hi) stp) as [|xi xs IH];
    [reflexivity|].
  cbn [flat_map]. rewrite length_app, length_map, IH. reflexivity.
Qed.

Lemma grid_in (lo hi : Q * Q) (stp : Q) (p : Q * Q) :
  In p (grid lo hi stp) ->
  In (fst p) (arange (fst lo) (fst hi) stp) /\
  In (snd p) (arange (snd lo) (snd hi) stp).
Proof.
  unfold grid. intros H. apply in_flat_map in H as (xi & Hx & Hp).
  apply in_map_iff in Hp as (yi & <- & Hy). split; assumption.
Qed.

Lemma min_from_le_init (l : list Q) : forall m, min_from m l <= m.
Proof.
  induction l as [|x l IH]; intros m; cbn [min_from]; [apply Qle_refl|].
  destruct (Qlt_bool x m) eqn:E; [|apply IH].
  eapply Qle_trans; [apply IH|]. apply Qlt_le_weak, Qlt_bool_true, E.
Qed.

Lemma bounding_box_ordered (seg : list (Q * Q)) (lo hi : Q * Q) :
  bounding_box seg = Some (lo, hi) ->
  fst lo <= fst hi /\ snd lo <= snd hi.
Proof.
  destruct seg as [|p seg]; [discriminate|]. cbn [bounding_box].
  intros [= <- <-]. cbn [fst snd].
  split; (eapply Qle_trans; [apply min_from_le_init | apply max_from_ge_init]).
Qed.

Lemma min_from_in (l : list Q) :
  forall m, min_from m l = m \/ In (min_from m l) l.
Proof.
  induction l as [|x l IH]; intros m; cbn [min_from In]; [left; reflexivity|].
  destruct (Qlt_bool x m); destruct (IH x) as [Hx|Hx];
    destruct (IH m) as [Hm|Hm]; auto.
Qed.

Lemma max_from_in (l : list Q) :
  forall m, max_from m l = m \/ In (max_from m l) l.
Proof.
  induction l as [|x l IH]; intros m; cbn [max_from In]; [left; reflexivity|].
  destruct (Qlt_bool m x); destruct (IH x) as [Hx|Hx];
    destruct (IH m) as [Hm|Hm]; auto.
Qed.

Lemma pixels_coordinates (zseg : list (Z * Z)) (q : Q) :
  whole_pixels zseg ->
  In q (map fst (pixels zseg)) \/ In q (map snd (pixels zseg)) ->
  exists z, q = inject_Z z /\ in_double_range z.
Proof.
  intros Hw Hin. unfold pixels in Hin. rewrite !map_map in Hin.
  cbn [fst snd] in Hin.
  destruct Hin as [Hin|Hin]; apply in_map_iff in Hin as (p & <- & Hp);
    apply (proj1 (List.Forall_forall _ _) Hw) in Hp as [H1 H2]; eauto.
Qed.

(** The bounding box of a polygon in whole pixels has whole edges. *)
Lemma bounding_box_pixels (zseg : list (Z * Z)) (lo hi : Q * Q) :
  whole_pixels zseg ->
  bounding_box (pixels zseg) = Some (lo, hi) ->
  exists xlo ylo xhi yhi,
    lo = (inject_Z xlo, inject_Z ylo) /\ hi = (inject_Z xhi, inject_Z yhi) /\
    in_double_range xlo /\ in_double_range ylo /\
    in_double_range xhi /\ in_double_range yhi.
Proof.
  intros Hw Hbox.
  destruct zseg as [|p zs]; [discriminate|].
  cbn [pixels map bounding_box fst snd] in Hbox. injection Hbox as <- <-.
  fold (pixels zs).
  assert (Hx : forall q,
             q = inject_Z (fst p) \/ In q (map fst (pixels zs)) ->
             exists z, q = inject_Z z /\ in_double_range z).
  { intros q Hq. apply (pixels_coordinates (p :: zs) q Hw).
    left. cbn [pixels map fst]. destruct Hq as [->|Hq]; [left | right]; auto. }
  assert (Hy : forall q,
             q = inject_Z (snd p) \/ In q (map snd (pixels zs)) ->
             exists z, q = inject_Z z /\ in_double_range z).
  { intros q Hq. apply (pixels_coordinates (p :: zs) q Hw).
    right. cbn [pixels map snd]. destruct Hq as [->|Hq]; [left | right]; auto. }
  destruct (Hx _ (min_from_in (map fst (pixels zs)) (inject_Z (fst p))))
    as (xlo & -> & ?).
  destruct (Hy _ (min_from_in (map snd (pixels zs)) (inject_Z (snd p))))
    as (ylo & -> & ?).
  destruct (Hx _ (max_from_in (map fst (pixels zs)) (inject_Z (fst p))))
    as (xhi & -> & ?).
  destruct (Hy _ (max_from_in (map snd (pixels zs)) (inject_Z (snd p))))
    as (yhi & -> & ?).
  exists xlo, ylo, xhi, yhi. auto 10.
Qed.

(** On whole edges the values of the range are whole numbers between the
    edges. *)
Lemma arange_whole (a b : Z) (x : Q) :
  in_double_range a -> in_double_range b ->
  In x (arange (inject_Z a) (inject_Z b) step) ->
  exists z, x == inject_Z z /\ in_double_range z.
Proof.
  intros Ha Hb Hin.
  assert (Hs : 0 < step) by reflexivity.
  destruct (arange_half_open _ _ _ _ Hs Hin) as [Hlo Hhi].
  unfold arange in Hin. apply in_map_iff in Hin as (i & <- & _).
  exists (a + Z.of_nat i * 5)%Z.
  assert (E : inject_Z a + inject_Z (Z.of_nat i) * step ==
              inject_Z (a + Z.of_nat i * 5)).
  { rewrite inject_Z_plus, inject_Z_mult. reflexivity. }
  split; [exact E|].
  rewrite E in Hlo, Hhi. rewrite <- Zle_Qle in Hlo. rewrite <- Zlt_Qlt in Hhi.
  unfold in_double_range in *. lia.
Qed.

(** C3, as the script behaves on polygons in whole pixels: the grid over
    the bounding box is half-open on both axes, its points are whole
    pixels, each axis carries [ceil((max - min) / step)] values, one more
    value would reach the box's max edge, and the number of candidate
    points is the product of the two axis counts, a function of the box
    and the step only. *)
Theorem C3_grid_half_open_ceiling (zseg : list (Z * Z)) (lo hi : Q * Q) :
  whole_pixels zseg ->
  bounding_box (pixels zseg) = Some (lo, hi) ->
  (forall p, In p (grid lo hi step) ->
     (fst lo <= fst p /\ fst p < fst hi) /\
     (snd lo <= snd p /\ snd p < snd hi) /\
     exists a b, fst p == inject_Z a /\ snd p == inject_Z b /\
                 in_double_range a /\ in_double_range b) /\
  (length (arange (fst lo) (fst hi) step) =
     Z.to_nat (Qceiling ((fst hi - fst lo) / step)) /\
   fst hi <= fst lo +
     inject_Z (Z.of_nat (length (arange (fst lo) (fst hi) step))) * step) /\
  (length (arange (snd lo) (snd hi) step) =
     Z.to_nat (Qceiling ((snd hi - snd lo) / step)) /\
   snd hi <= snd lo +
     inject_Z (Z.of_nat (length (arange (snd lo) (snd hi) step))) * step) /\
  length (grid lo hi step) =
    (Z.to_nat (Qceiling ((fst hi - fst lo) / step)) *
     Z.to_nat (Qceiling ((snd hi - snd lo) / step)))%nat.
Proof.
  intros Hw Hbox.
  destruct (bounding_box_pixels _ _ _ Hw Hbox)
    as (xlo & ylo & xhi & yhi & -> & -> & Hxl & Hyl & Hxh & Hyh).
  apply bounding_box_ordered in Hbox as [Hx Hy]. cbn [fst snd] in *.
  assert (Hs : 0 < step) by reflexivity.
  split; [|split; [|split]].
  - intros p H. apply grid_in in H as [Hpx Hpy]. cbn [fst snd] in *.
    split; [exact (arange_half_open _ _ _ _ Hs Hpx)|].
    split; [exact (arange_half_open _ _ _ _ Hs Hpy)|].
    destruct (arange_whole _ _ _ Hxl Hxh Hpx) as (a & Ea & Ha).
    destruct (arange_whole _ _ _ Hyl Hyh Hpy) as (b & Eb & Hb).
    exists a, b. auto.
  - split; [apply arange_length|].
    apply arange_exhaustive; assumption.
  - split; [apply arange_length|].
    apply arange_exhaustive; assumption.
  - rewrite grid_length, !arange_length. reflexivity.
Qed.

Lemma C3_grid_half_open_ceiling_witness :
  length (grid (0, 0) (12, 12) step) = 9%nat /\
  (forall p, In p (grid (0, 0) (12, 12) step) -> fst p < 12 /\ snd p < 12).
Proof.
  destruct (C3_grid_half_open_ceiling
              [(0, 6); (6, 0); (12, 6); (6, 12)]%Z (0, 0) (12, 12))
    as (Hin & _ & _ & Hlen).
  - repeat constructor; unfold in_double_range; cbn; lia.
  - vm_compute. reflexivity.
  - split; [rewrite Hlen; reflexivity|].
    intros p Hp. destruct (Hin p Hp) as ([_ Hx] & [_ Hy] & _).
    split; assumption.
Defined.

(** C3, as stated, fails: the diamond's bounding box is 12 wide, the grid
    carries 3 values per axis and 9 candidate points, while
    [floor(12 / 5)] is 2. *)
Lemma C3_floor_counterexample :
  option_map
    (fun box => (length (arange (fst (fst box)) (fst (snd box)) step),
                 length (arange (snd (fst box)) (snd (snd box)) step),
                 length (grid (fst box) (snd box) step),
                 Z.to_nat (Qfloor ((fst (snd box) - fst (fst box)) / step)),
                 Z.to_nat (Qfloor ((snd (snd box) - snd (fst box)) / step))))
    (bounding_box (diamond 6)) = Some (3, 3, 9, 2, 2)%nat.
Proof. vm_compute. reflexivity. Qed.

(** Off whole pixels the rounding of the quotient can add a value: from
    3.3 to 8.3 the quotient by 5 rounds to just above 1, and the range in
    doubles has two values, the second equal to the stop. *)
Example arange_double_rounding :
  let start := double_of_Q (33 # 10) in
  let stop := double_of_Q (83 # 10) in
  np_arange_double start stop (double_of_Z 5) = [start; stop] /\
  length (arange (33 # 10) (83 # 10) step) = 1%nat.
Proof. vm_compute. split; reflexivity. Qed.

(** On the diamond's box, in whole pixels, the range in doubles is the
    exact one. *)
Example arange_double_whole_pixels :
  map (fun f => Qred (Q_of_double f))
      (np_arange_double (double_of_Z 0) (double_of_Z 12) (double_of_Z 5)) =
  map Qred (arange 0 12 step).
Proof. vm_compute. reflexivity. Qed.

(** ** Coordinate mapping *)

(** C6: over exact arithmetic, mapping an image point to the sole's frame
    and back returns the point, provided neither scale factor is zero. *)
Theorem C6_round_trip (mp : Mapper) (x_img y_img : Q) :
  ~ x_scale mp == 0 -> ~ y_scale mp == 0 ->
  fst (map_3d_to_2d mp (fst (map_2d_to_3d mp x_img y_img))
                       (snd (map_2d_to_3d mp x_img y_img))) == x_img /\
  snd (map_3d_to_2d mp (fst (map_2d_to_3d mp x_img y_img))
                       (snd (map_2d_to_3d mp x_img y_img))) == y_img.
Proof.
  intros Hx Hy. unfold map_3d_to_2d, map_2d_to_3d. cbn [fst snd].
  split; field; assumption.
Qed.

Lemma C6_round_trip_witness :
  let mp := mapper_of (slab 120 120 5) one_zone in
  fst (map_3d_to_2d mp (fst (map_2d_to_3d mp 5 10))
                       (snd (map_2d_to_3d mp 5 10))) == 5 /\
  snd (map_3d_to_2d mp (fst (map_2d_to_3d mp 5 10))
                       (snd (map_2d_to_3d mp 5 10))) == 10.
Proof.
  apply (C6_round_trip (mapper_of (slab 120 120 5) one_zone) 5 10);
    vm_compute; discriminate.
Defined.

(** Two image points one step apart land [step * x_scale] apart on the
    sole. *)
Lemma step_on_sole (mp : Mapper) (x y : Q) :
  fst (map_2d_to_3d mp (x + step) y) - fst (map_2d_to_3d mp x y)
  == step * x_scale mp.
Proof. unfold map_2d_to_3d. cbn [fst]. ring. Qed.

(** C9, evaluated: on a 120 mm sole under a 12 pixel image the scale is
    10 mm per pixel; the grid columns are 0, 5, 10 pixels, the raw constant
    and not 5 / 10 pixels, and neighbouring columns land 50 mm apart. *)
Lemma C9_step_is_raw_pixels :
  let env := demo_env 120 120 one_zone in
  let mp := mapper_of (sole_model env) (coco_data env) in
  x_scale mp == 10 /\
  option_map (fun box => arange (fst (fst box)) (fst (snd box)) step)
             (bounding_box (diamond 6)) = Some [0; 5; 10] /\
  ~ step == 5 / x_scale mp /\
  fst (map_2d_to_3d mp (0 + step) 6) - fst (map_2d_to_3d mp 0 6) == 50.
Proof.
  cbv zeta. repeat split; try (vm_compute; reflexivity).
  vm_compute. discriminate.
Qed.

(** ** Surface location *)

(** [np.argmax] points at the value that [max] returns. *)
Lemma argmax_from_nth (d : Q) (l : list Q) :
  forall (pre : list Q) (best_i : nat) (best : Q),
    (best_i < length pre)%nat -> nth best_i pre d = best ->
    (argmax_from best_i best (length pre) l < length (pre ++ l))%nat /\
    nth (argmax_from best_i best (length pre) l) (pre ++ l) d =
    max_from best l.
Proof.
  induction l as [|x l IH]; intros pre best_i best Hlt Hnth.
  - cbn [argmax_from max_from]. rewrite app_nil_r. split; assumption.
  - cbn [argmax_from max_from].
    replace (pre ++ x :: l) with ((pre ++ [x]) ++ l)
      by (rewrite <- app_assoc; reflexivity).
    replace (S (length pre)) with (length (pre ++ [x]))
      by (rewrite length_app; cbn; lia).
    destruct (Qlt_bool best x).
    + apply IH.
      * rewrite length_app. cbn. lia.
      * rewrite app_nth2 by lia. rewrite Nat.sub_diag. reflexivity.
    + apply IH.
      * rewrite length_app. cbn. lia.
      * rewrite app_nth1 by assumption. assumption.
Qed.

Lemma surface_point_max (locations : list Vec3) :
  locations <> [] ->
  exists z3d loc,
    surface_point locations = Some (z3d, loc) /\
    In loc locations /\ vz loc = z3d /\
    forall l, In l locations -> vz l <= z3d.
Proof.
  destruct locations as [|l0 ls]; [congruence|]. intros _.
  exists (max_from (vz l0) (map vz ls)).
  exists (nth (argmax (map vz (l0 :: ls))) (l0 :: ls) l0).
  destruct (argmax_from_nth (vz l0) (map vz ls) [vz l0] 0 (vz l0))
    as [Hlt Hnth]; [cbn; lia | reflexivity |].
  cbn [length app] in Hlt, Hnth.
  change (argmax_from 0 (vz l0) 1 (map vz ls))
    with (argmax (map vz (l0 :: ls))) in Hlt, Hnth.
  change (vz l0 :: map vz ls) with (map vz (l0 :: ls)) in Hlt, Hnth.
  rewrite length_map in Hlt. rewrite map_nth in Hnth.
  split; [reflexivity|]. split; [apply nth_In; assumption|].
  split; [assumption|].
  intros l [<-|Hin]; [apply max_from_ge_init|].
  apply max_from_ge_all, in_map, Hin.
Qed.

Lemma surface_point_none (locations : list Vec3) :
  surface_point locations = None -> locations = [].
Proof. destruct locations; [reflexivity | discriminate]. Qed.

(** C2: for a sample point inside the polygon whose ray, cast from
    [(x3d, y3d, top_z + 10)] in direction [(0, 0, -1)], meets the mesh, the
    surface point taken is one of the intersections, no intersection lies
    higher, and the bump is placed with that intersection and its z. *)
Theorem C2_highest_intersection (env : Env) (mp : Mapper) (top_z : Q)
    (zone_name : string) (color : Color) (path : Path)
    (st : State) (valid_points : nat) (pt : Q * Q) :
  contains_point env path pt = true ->
  intersects_location (sole_model env)
    (mkVec3 (fst (map_2d_to_3d mp (fst pt) (snd pt)))
            (snd (map_2d_to_3d mp (fst pt) (snd pt))) (top_z + 10))
    (mkVec3 0 0 (-1)) <> [] ->
  exists loc,
    In loc (intersects_location (sole_model env)
              (mkVec3 (fst (map_2d_to_3d mp (fst pt) (snd pt)))
                      (snd (map_2d_to_3d mp (fst pt) (snd pt))) (top_z + 10))
              (mkVec3 0 0 (-1))) /\
    (forall l,
       In l (intersects_location (sole_model env)
               (mkVec3 (fst (map_2d_to_3d mp (fst pt) (snd pt)))
                       (snd (map_2d_to_3d mp (fst pt) (snd pt))) (top_z + 10))
               (mkVec3 0 0 (-1))) ->
       vz l <= vz loc) /\
    sample env mp top_z zone_name color path (st, valid_points) pt =
    (hit zone_name color
       (fst (map_2d_to_3d mp (fst pt) (snd pt)))
       (snd (map_2d_to_3d mp (fst pt) (snd pt)))
       (vz loc) loc st,
     S valid_points).
Proof.
  intros Hin Hne.
  destruct (surface_point_max _ Hne) as (z3d & loc & Hsp & Hloc & Hz & Hmax).
  exists loc. split; [assumption|]. split; [rewrite Hz; assumption|].
  unfold sample. rewrite Hin.
  destruct (map_2d_to_3d mp (fst pt) (snd pt)) as [x3d y3d]. cbn [fst snd] in *.
  unfold ray_origin, ray_clearance, down. rewrite Hsp, Hz. reflexivity.
Qed.

Lemma C2_highest_intersection_witness :
  let env := demo_env 120 120 one_zone in
  let mp := mapper_of (sole_model env) (coco_data env) in
  exists loc,
    In loc (intersects_location (sole_model env)
              (mkVec3 (fst (map_2d_to_3d mp 5 5))
                      (snd (map_2d_to_3d mp 5 5)) (5 + 10))
              (mkVec3 0 0 (-1))) /\
    (forall l,
       In l (intersects_location (sole_model env)
               (mkVec3 (fst (map_2d_to_3d mp 5 5))
                       (snd (map_2d_to_3d mp 5 5)) (5 + 10))
               (mkVec3 0 0 (-1))) ->
       vz l <= vz loc) /\
    sample env mp 5 "heart" (color_of "heart") (diamond 6)
      (initial_state ∅, O) (5, 5) =
    (hit "heart" (color_of "heart")
       (fst (map_2d_to_3d mp 5 5)) (snd (map_2d_to_3d mp 5 5))
       (vz loc) loc (initial_state ∅),
     1%nat).
Proof.
  cbv zeta.
  apply (C2_highest_intersection (demo_env 120 120 one_zone)
           (mapper_of (slab 120 120 5) one_zone) 5 "heart"
           (color_of "heart") (diamond 6) (initial_state ∅) O (5, 5)).
  - vm_compute. reflexivity.
  - vm_compute. discriminate.
Defined.

(** ** Invariants of the placement loop *)

Section PlacementInvariant.
Context (env : Env) (Inv : State -> Prop).

Hypothesis Inv_warn : forall msg st, Inv st -> Inv (warn msg st).
Hypothesis Inv_path :
  forall zone_name path st, Inv st -> Inv (set_zone_path zone_name path st).
Hypothesis Inv_miss :
  forall origin st,
    intersects_location (sole_model env) origin down = [] ->
    Inv st -> Inv (miss st).
Hypothesis Inv_hit :
  forall zone_name color x3d y3d locations z3d loc st,
    surface_point locations = Some (z3d, loc) ->
    Inv st -> Inv (hit zone_name color x3d y3d z3d loc st).

Lemma sample_invariant mp top_z zone_name color path acc pt :
  Inv (fst acc) ->
  Inv (fst (sample env mp top_z zone_name color path acc pt)).
Proof.
  destruct acc as [st n]. cbn [fst]. intros H. unfold sample.
  destruct (contains_point env path pt); [|assumption].
  destruct (map_2d_to_3d mp (fst pt) (snd pt)) as [x3d y3d].
  destruct (surface_point _) as [[z3d loc]|] eqn:E; cbn [fst].
  - eapply Inv_hit; eassumption.
  - apply surface_point_none in E. eapply Inv_miss; eassumption.
Qed.

Lemma samples_invariant mp top_z zone_name color path pts :
  forall acc,
    Inv (fst acc) ->
    Inv (fst (fold_left (sample env mp top_z zone_name color path) pts acc)).
Proof.
  induction pts as [|pt pts IH]; intros acc H; [assumption|].
  cbn [fold_left]. apply IH, sample_invariant, H.
Qed.

Lemma process_body_invariant mp top_z st ann :
  Inv st -> Inv (process_body env mp top_z st ann).
Proof.
  intros H. unfold process_body.
  destruct (usable_name _) as [zone_name|]; [|apply Inv_warn, H].
  destruct (bounding_box _) as [[lo hi]|];
    [|apply Inv_warn, Inv_path, H].
  pose proof (samples_invariant mp top_z zone_name (color_of zone_name)
                (segmentation ann) (grid lo hi step)
                (set_zone_path zone_name (segmentation ann) st, O)
                (Inv_path _ _ _ H)) as Hs.
  destruct (fold_left _ _ _) as [st2 n]. cbn [fst] in Hs.
  destruct (Nat.eqb n 0); [apply Inv_warn|]; assumption.
Qed.

Lemma placement_invariant selected_ids :
  Inv (initial_state (zone_name_to_ids (categories (coco_data env)))) ->
  Inv (placement env selected_ids).
Proof.
  unfold placement.
  generalize (initial_state (zone_name_to_ids (categories (coco_data env)))).
  induction (annotations (coco_data env)) as [|ann anns IH]; intros st H;
    [assumption|].
  cbn [fold_left]. apply IH. unfold process_annotation.
  destruct (skipped selected_ids ann);
    [assumption | apply process_body_invariant, H].
Qed.
End PlacementInvariant.

Lemma successes_le_attempts (env : Env) (selected_ids : list Z) :
  (ray_casting_successes (placement env selected_ids) <=
   ray_casting_attempts (placement env selected_ids))%nat.
Proof.
  apply (placement_invariant env
           (fun st => (ray_casting_successes st <= ray_casting_attempts st)%nat));
    cbn; intros; lia.
Qed.

(** The bumps and the recorded surface points run in step, and every bump
    sits [z_offset] above its surface point. *)
Lemma bumps_over_locations (env : Env) (selected_ids : list Z) :
  Forall2 (fun b loc => vz (translation b) = vz loc + z_offset)
          (spikes (placement env selected_ids))
          (bump_locations (placement env selected_ids)).
Proof.
  apply (placement_invariant env
           (fun st =>
              Forall2 (fun b loc => vz (translation b) = vz loc + z_offset)
                      (spikes st) (bump_locations st)));
    cbn; intros; try assumption; [|constructor].
  apply Forall2_app; [assumption|]. constructor; [|constructor]. cbn.
  destruct locations as [|l0 ls]; [discriminate|].
  destruct (surface_point_max (l0 :: ls)) as (z & l & Hsp & _ & Hz & _);
    [discriminate|].
  rewrite Hsp in H. injection H as <- <-. rewrite Hz. reflexivity.
Qed.

(** ** Success rate *)

Lemma percent_bounds (part whole : nat) :
  (part <= whole)%nat -> (0 < whole)%nat ->
  0 <= percent part whole /\ percent part whole <= 100.
Proof.
  intros Hle Hpos. unfold percent.
  assert (Hw : 0 < inject_Z (Z.of_nat whole))
    by (change 0 with (inject_Z 0); rewrite <- Zlt_Qlt; lia).
  assert (Hp : 0 <= inject_Z (Z.of_nat part))
    by (change 0 with (inject_Z 0); rewrite <- Zle_Qle; lia).
  assert (Hpw : inject_Z (Z.of_nat part) <= inject_Z (Z.of_nat whole))
    by (rewrite <- Zle_Qle; lia).
  split.
  - apply Qmult_le_0_compat; [|discriminate].
    apply Qle_shift_div_l; [assumption|]. rewrite Qmult_0_l. assumption.
  - setoid_rewrite <- (Qmult_1_l 100) at 2.
    apply Qmult_le_compat_r; [|discriminate].
    apply Qle_shift_div_r; [assumption|]. rewrite Qmult_1_l. assumption.
Qed.

Lemma percent_all (whole : nat) : (0 < whole)%nat -> percent whole whole == 100.
Proof.
  intros Hpos. unfold percent. field. intros E.
  assert (Hw : 0 < inject_Z (Z.of_nat whole))
    by (change 0 with (inject_Z 0); rewrite <- Zlt_Qlt; lia).
  rewrite E in Hw. discriminate.
Qed.

Lemma sample_counts (env : Env) mp top_z zone_name color path st n pt :
  ray_casting_attempts
    (fst (sample env mp top_z zone_name color path (st, n) pt)) =
    (ray_casting_attempts st +
     (if contains_point env path pt then 1 else 0))%nat /\
  ray_casting_successes
    (fst (sample env mp top_z zone_name color path (st, n) pt)) =
    (ray_casting_successes st +
     (if contains_point env path pt && ray_hits env mp top_z pt
      then 1 else 0))%nat.
Proof.
  unfold sample, ray_hits, cast_ray.
  destruct (contains_point env path pt); [|cbn; lia].
  destruct (map_2d_to_3d mp (fst pt) (snd pt)) as [x3d y3d]. cbn [fst snd].
  destruct (intersects_location _ _ _) as [|l0 ls]; cbn; lia.
Qed.

Lemma samples_counts (env : Env) mp top_z zone_name color path pts :
  forall acc,
    ray_casting_attempts
      (fst (fold_left (sample env mp top_z zone_name color path) pts acc)) =
      (ray_casting_attempts (fst acc) +
       length (List.filter (contains_point env path) pts))%nat /\
    ray_casting_successes
      (fst (fold_left (sample env mp top_z zone_name color path) pts acc)) =
      (ray_casting_successes (fst acc) +
       length (List.filter (ray_hits env mp top_z)
                 (List.filter (contains_point env path) pts)))%nat.
Proof.
  induction pts as [|pt pts IH]; intros [st n]; cbn [fold_left List.filter].
  - cbn. lia.
  - destruct (IH (sample env mp top_z zone_name color path (st, n) pt))
      as [Ha Hs].
    destruct (sample_counts env mp top_z zone_name color path st n pt)
      as [Ha1 Hs1].
    rewrite Ha, Hs, Ha1, Hs1. cbn [fst].
    destruct (contains_point env path pt); cbn [andb List.filter length];
      [|lia].
    destruct (ray_hits env mp top_z pt); cbn [length]; lia.
Qed.

Lemma process_annotation_counts (env : Env) mp top_z selected_ids st ann :
  ray_casting_attempts (process_annotation env mp top_z selected_ids st ann) =
    (ray_casting_attempts st +
     length (annotation_samples env selected_ids ann))%nat /\
  ray_casting_successes
    (process_annotation env mp top_z selected_ids st ann) =
    (ray_casting_successes st +
     length (List.filter (ray_hits env mp top_z)
               (annotation_samples env selected_ids ann)))%nat.
Proof.
  unfold process_annotation, annotation_samples.
  destruct (skipped selected_ids ann); [cbn; lia|]. unfold process_body.
  destruct (usable_name _) as [zone_name|]; [|cbn; lia].
  destruct (bounding_box _) as [[lo hi]|]; [|cbn; lia].
  pose proof (samples_counts env mp top_z zone_name (color_of zone_name)
                (segmentation ann) (grid lo hi step)
                (set_zone_path zone_name (segmentation ann) st, O)) as H.
  destruct (fold_left _ _ _) as [st2 n]. cbn [fst] in H.
  destruct (Nat.eqb n 0); exact H.
Qed.

(** Every sample point costs one attempt, every sample point whose ray
    meets the mesh one success. *)
Lemma placement_counts (env : Env) (selected_ids : list Z) :
  ray_casting_attempts (placement env selected_ids) =
    length (sample_points env selected_ids) /\
  ray_casting_successes (placement env selected_ids) =
    length (List.filter
              (ray_hits env (mapper_of (sole_model env) (coco_data env))
                 (top_z_of (sole_model env)))
              (sample_points env selected_ids)).
Proof.
  unfold placement, sample_points.
  set (mp := mapper_of (sole_model env) (coco_data env)).
  set (top_z := top_z_of (sole_model env)).
  assert (G : forall anns st,
    ray_casting_attempts
      (fold_left (process_annotation env mp top_z selected_ids) anns st) =
      (ray_casting_attempts st +
       length (flat_map (annotation_samples env selected_ids) anns))%nat /\
    ray_casting_successes
      (fold_left (process_annotation env mp top_z selected_ids) anns st) =
      (ray_casting_successes st +
       length (List.filter (ray_hits env mp top_z)
                 (flat_map (annotation_samples env selected_ids) anns)))%nat).
  { induction anns as [|ann anns IH]; intros st; cbn [fold_left flat_map].
    - cbn. lia.
    - destruct (IH (process_annotation env mp top_z selected_ids st ann))
        as [Ha Hs].
      destruct (process_annotation_counts env mp top_z selected_ids st ann)
        as [Ha1 Hs1].
      rewrite Ha, Hs, Ha1, Hs1, List.filter_app, !length_app. lia. }
  apply (G (annotations (coco_data env))
           (initial_state (zone_name_to_ids (categories (coco_data env))))).
Qed.

Lemma filter_all_length {A} (f : A -> bool) (l : list A) :
  (forall x, In x l -> f x = true) -> length (List.filter f l) = length l.
Proof.
  induction l as [|x l IH]; intros H; [reflexivity|].
  cbn [List.filter]. rewrite (H x (or_introl eq_refl)). cbn [length].
  rewrite IH; [reflexivity|]. intros y Hy. apply H. right. assumption.
Qed.

(** C4: at the end of every run the success rate lies between 0 and 100;
    successes never exceed attempts; the rate is 0 when no ray was cast and
    successes / attempts * 100 otherwise; every sample point counts one
    attempt, and one success if its ray meets the mesh; and the rate is 100
    when rays were cast and the ray of every sample point meets the
    mesh. *)
Theorem C4_success_rate (env : Env) (selected_ids : list Z) :
  (0 <= success_rate (placement env selected_ids) /\
   success_rate (placement env selected_ids) <= 100) /\
  (ray_casting_successes (placement env selected_ids) <=
   ray_casting_attempts (placement env selected_ids))%nat /\
  (ray_casting_attempts (placement env selected_ids) = 0%nat ->
   success_rate (placement env selected_ids) = 0) /\
  ((0 < ray_casting_attempts (placement env selected_ids))%nat ->
   success_rate (placement env selected_ids) =
   inject_Z (Z.of_nat (ray_casting_successes (placement env selected_ids))) /
   inject_Z (Z.of_nat (ray_casting_attempts (placement env selected_ids))) *
   100) /\
  (ray_casting_attempts (placement env selected_ids) =
     length (sample_points env selected_ids) /\
   ray_casting_successes (placement env selected_ids) =
     length (List.filter
               (ray_hits env (mapper_of (sole_model env) (coco_data env))
                  (top_z_of (sole_model env)))
               (sample_points env selected_ids))) /\
  ((forall pt,
      In pt (sample_points env selected_ids) ->
      cast_ray env (mapper_of (sole_model env) (coco_data env))
        (top_z_of (sole_model env)) pt <> []) ->
   (0 < ray_casting_attempts (placement env selected_ids))%nat ->
   success_rate (placement env selected_ids) == 100).
Proof.
  pose proof (successes_le_attempts env selected_ids) as Hle.
  pose proof (placement_counts env selected_ids) as [Hatt Hsucc].
  assert (Hall :
    (forall pt,
       In pt (sample_points env selected_ids) ->
       cast_ray env (mapper_of (sole_model env) (coco_data env))
         (top_z_of (sole_model env)) pt <> []) ->
    ray_casting_successes (placement env selected_ids) =
    ray_casting_attempts (placement env selected_ids)).
  { intros Hhit. rewrite Hatt, Hsucc. apply filter_all_length.
    intros pt Hpt. specialize (Hhit pt Hpt). unfold ray_hits.
    destruct (cast_ray _ _ _ pt); [congruence | reflexivity]. }
  unfold success_rate.
  destruct (0 <? ray_casting_attempts (placement env selected_ids))%nat eqn:E.
  - apply Nat.ltb_lt in E. split; [apply percent_bounds; assumption|].
    split; [assumption|]. split; [lia|]. split; [reflexivity|].
    split; [split; assumption|].
    intros Hhit _. rewrite (Hall Hhit). apply percent_all. assumption.
  - apply Nat.ltb_ge in E. split; [split; discriminate|].
    split; [assumption|]. split; [reflexivity|].
    split; [intros; lia|]. split; [split; assumption | intros; lia].
Qed.

Lemma C4_success_rate_witness :
  success_rate (placement (demo_env 120 120 one_zone) []) == 100 /\
  success_rate (placement (demo_env 24 24 one_zone) []) =
  inject_Z 2 / inject_Z 3 * 100.
Proof.
  split.
  - destruct (C4_success_rate (demo_env 120 120 one_zone) [])
      as (_ & _ & _ & _ & _ & H).
    apply H; [|vm_compute; lia].
    intros pt Hpt. vm_compute in Hpt.
    destruct Hpt as [<-|[<-|[<-|[]]]]; vm_compute; discriminate.
  - destruct (C4_success_rate (demo_env 24 24 one_zone) [])
      as (_ & _ & _ & H & _).
    apply H. vm_compute. lia.
Defined.

(** ** The dome *)

Lemma linspace_range (stop : R) (num : nat) (v : R) :
  (0 <= stop)%R -> In v (linspace 0 stop num) -> (0 <= v <= stop)%R.
Proof.
  intros Hs Hin. unfold linspace in Hin.
  apply in_map_iff in Hin as (i & <- & Hi). apply in_seq in Hi as [_ Hi].
  cbn in Hi.
  destruct (Nat.eq_dec (num - 1)%nat 0%nat) as [E|E].
  - assert (i = 0)%nat as -> by lia. cbn [INR]. lra.
  - assert (Hk : (0 < INR (num - 1))%R) by (apply lt_0_INR; lia).
    assert (Ha : (0 <= INR i)%R) by apply pos_INR.
    assert (Hak : (INR i <= INR (num - 1))%R) by (apply le_INR; lia).
    assert (Hi' : (0 < / INR (num - 1))%R)
      by (apply Rinv_0_lt_compat; assumption).
    assert (Eq : (0 + INR i * ((stop - 0) / INR (num - 1)) =
                  INR i * / INR (num - 1) * stop)%R) by (field; lra).
    rewrite Eq.
    assert (H0 : (0 <= INR i * / INR (num - 1))%R) by nra.
    assert (H1 : (INR i * / INR (num - 1) <= 1)%R).
    { apply (Rmult_le_reg_r (INR (num - 1))); [assumption|].
      rewrite Rmult_assoc, Rinv_l by lra. lra. }
    split; nra.
Qed.

(** Before translation no vertex of the dome lies below its base. *)
Lemma dome_above_base (rx ry rz : R) (sections stacks : nat) (p : Point) :
  (0 <= rz)%R -> In p (dome_vertices rx ry rz sections stacks) ->
  (0 <= z_of p)%R.
Proof.
  intros Hrz Hin. unfold dome_vertices in Hin.
  apply in_flat_map in Hin as (v & Hv & Hp).
  apply in_map_iff in Hp as (u & <- & _). cbn [z_of snd].
  apply linspace_range in Hv; [|pose proof PI_RGT_0; lra].
  apply Rmult_le_pos; [assumption|]. apply cos_ge_0; lra.
Qed.

Lemma bump_mesh_above (b : Bump) (p : Point) :
  In p (vertices (bump_mesh b)) ->
  (Q2R (vz (translation b)) <= z_of p)%R.
Proof.
  unfold bump_mesh, apply_translation, create_ellipsoid_bump.
  cbn [vertices]. intros Hin.
  apply in_map_iff in Hin as ([[x y] z] & <- & Hd).
  apply dome_above_base in Hd; [|unfold bump_height; lra].
  cbn [z_of snd] in *. lra.
Qed.

(** C5: the i-th bump stands on the i-th recorded surface point, and every
    vertex of its mesh lies strictly above that point. *)
Theorem C5_bump_above_surface (env : Env) (selected_ids : list Z)
    (i : nat) (b : Bump) (loc : Vec3) (p : Point) :
  spikes (placement env selected_ids) !! i = Some b ->
  bump_locations (placement env selected_ids) !! i = Some loc ->
  In p (vertices (bump_mesh b)) ->
  (Q2R (vz loc) < z_of p)%R.
Proof.
  intros Hb Hloc Hp.
  pose proof (Forall2_lookup_lr _ _ _ _ _ _
                (bumps_over_locations env selected_ids) Hb Hloc) as Hz.
  cbn beta in Hz. apply bump_mesh_above in Hp.
  rewrite Hz, Q2R_plus in Hp.
  assert (Ho : (0 < Q2R z_offset)%R) by (unfold Q2R, z_offset; cbn; lra).
  lra.
Qed.

Lemma C5_bump_above_surface_witness :
  exists b loc,
    spikes (placement (demo_env 120 120 one_zone) []) !! 0%nat = Some b /\
    bump_locations (placement (demo_env 120 120 one_zone) []) !! 0%nat
      = Some loc /\
    vz loc = 5 /\
    forall p, In p (vertices (bump_mesh b)) -> (Q2R (vz loc) < z_of p)%R.
Proof.
  eexists. eexists.
  split; [vm_compute; reflexivity|].
  split; [vm_compute; reflexivity|].
  split; [reflexivity|].
  intros p.
  apply (C5_bump_above_surface (demo_env 120 120 one_zone) [] 0);
    vm_compute; reflexivity.
Defined.

(** ** Mapping accuracy *)

(** C7, evaluated: with the zone drawn as two polygons, the stored paths
    hold only the second; all six bumps re-project into a polygon of the
    annotation set, three are counted and the metric is 50. *)
Lemma C7_overwritten_polygon :
  let env := demo_env 400 120 two_polygons in
  let mp := mapper_of (sole_model env) (coco_data env) in
  let st := placement env [1%Z] in
  spike_count st = 6%nat /\
  map_to_list (zone_paths st) = [("heart"%string, diamond 26)] /\
  forallb
    (fun loc =>
       existsb
         (fun ann =>
            contains_point env (segmentation ann)
              (map_3d_to_2d mp (vx loc) (vy loc)))
         (annotations (coco_data env)))
    (bump_locations st) = true /\
  correct_placements env mp st = 3%nat /\
  placement_accuracy env mp st == 50.
Proof. vm_compute. repeat split; reflexivity. Qed.

(** ** The embedding on the script's own examples *)

Example lower_zone_name : lower "ADRENAL_GLAND" = "adrenal_gland"%string.
Proof. reflexivity. Qed.

Example default_output_name :
  stl_output_of "sole_with_spikes_left.ply" = "sole_with_spikes_left.stl"%string.
Proof. reflexivity. Qed.

Example replace_every_occurrence :
  replace ".ply" ".stl" "a.ply.ply.plx" = "a.stl.stl.plx"%string.
Proof. reflexivity. Qed.

Example arange_whole_quotient :
  arange 0 50 step = [0; 5; 10; 15; 20; 25; 30; 35; 40; 45].
Proof. vm_compute. reflexivity. Qed.

Example unmapped_zone_color : color_of "nose" = default_color.
Proof. reflexivity. Qed.

Example partial_miss_run :
  let r := run (demo_env 24 24 one_zone) ["HEART"%string] "out.ply" ∅ in
  exit_code r = 0%Z /\
  written r = ["out.ply"%string; "out.stl"%string] /\
  option_map ray_casting_attempts (final_state r) = Some 3%nat /\
  option_map ray_casting_successes (final_state r) = Some 2%nat.
Proof. vm_compute. repeat split; reflexivity. Qed.

(* ===================================================================== *)
(** * Part III: further properties of the script                           *)
(* ===================================================================== *)

(** ** The category map and the selection *)

Lemma zone_name_to_ids_fold (cats : list Category) (name : string) :
  forall m0 : gmap string (list Z),
    fold_left
      (fun (m : gmap string (list Z)) cat =>
         let name := lower (cat_name cat) in
         <[name := default [] (m !! name) ++ [cat_id cat]]> m)
      cats m0 !! name =
    match List.filter (named name) cats with
    | [] => m0 !! name
    | l => Some (default [] (m0 !! name) ++ map cat_id l)
    end.
Proof.
  induction cats as [|cat cats IH]; intros m0; [reflexivity|].
  cbn [fold_left List.filter]. rewrite IH. unfold named at 2.
  destruct (String.eqb (lower (cat_name cat)) name) eqn:E.
  - apply String.eqb_eq in E. subst name. rewrite lookup_insert_eq.
    destruct (List.filter (named (lower (cat_name cat))) cats) as [|c l];
      cbn; [reflexivity|].
    rewrite <- app_assoc. reflexivity.
  - apply String.eqb_neq in E. rewrite lookup_insert_ne by assumption.
    reflexivity.
Qed.

Lemma category_ids (cats : list Category) (name : string) :
  zone_name_to_ids cats !! name =
  match List.filter (named name) cats with
  | [] => None
  | l => Some (map cat_id l)
  end.
Proof.
  unfold zone_name_to_ids. rewrite zone_name_to_ids_fold, lookup_empty.
  reflexivity.
Qed.

(** X1: a name is a key of the category map exactly when some category
    bears it, casing aside, and the entry of a key lists the ids of all
    such categories in document order. *)
Theorem zone_name_to_ids_lookup (cats : list Category) (name : string) :
  (known (zone_name_to_ids cats) name = true <->
   exists cat, In cat cats /\ lower (cat_name cat) = name) /\
  (forall ids,
     zone_name_to_ids cats !! name = Some ids ->
     ids = map cat_id (List.filter (named name) cats)).
Proof.
  unfold known. rewrite category_ids. split.
  - split.
    + destruct (List.filter (named name) cats) as [|cat l] eqn:E;
        [discriminate|]. intros _.
      assert (Hin : In cat (List.filter (named name) cats))
        by (rewrite E; left; reflexivity).
      apply filter_In in Hin as [Hin Hn]. apply String.eqb_eq in Hn. eauto.
    + intros (cat & Hin & Hn).
      assert (Hf : In cat (List.filter (named name) cats))
        by (apply filter_In; split; [assumption | apply String.eqb_eq, Hn]).
      destruct (List.filter (named name) cats); [destruct Hf | reflexivity].
  - intros ids H.
    destruct (List.filter (named name) cats); [discriminate|].
    injection H as <-. reflexivity.
Qed.

Lemma resolve_zones_ids (m : gmap string (list Z)) (zones : list string) :
  fst (resolve_zones m zones) =
  flat_map (fun z => default [] (m !! z)) zones.
Proof.
  induction zones as [|z zones IH]; [reflexivity|].
  cbn [resolve_zones flat_map].
  destruct (resolve_zones m zones) as [ids warns]. cbn [fst] in IH.
  destruct (m !! z); cbn [fst]; rewrite IH; reflexivity.
Qed.

Lemma in_category_ids (cats : list Category) (name : string) (id : Z) :
  In id (default [] (zone_name_to_ids cats !! name)) <->
  exists cat, In cat cats /\ lower (cat_name cat) = name /\ cat_id cat = id.
Proof.
  rewrite category_ids.
  assert (H : In id (map cat_id (List.filter (named name) cats)) <->
              exists cat, In cat cats /\ lower (cat_name cat) = name /\
                          cat_id cat = id).
  { rewrite in_map_iff. split.
    - intros (cat & Hid & Hin). apply filter_In in Hin as [Hin Hn].
      apply String.eqb_eq in Hn. eauto.
    - intros (cat & Hin & Hn & Hid). exists cat. split; [assumption|].
      apply filter_In. split; [assumption|]. apply String.eqb_eq, Hn. }
  destruct (List.filter (named name) cats); exact H.
Qed.

(** X2: once the requested names select at least one id, an annotation
    passes the loop guard exactly when some category carrying the
    annotation's id has one of the requested names, casing aside. *)
Theorem selection_by_name (env : Env) (args_zones : list string)
    (ann : Annotation) :
  selected_ids_of (zone_name_to_ids (categories (coco_data env)))
    (map lower args_zones) <> [] ->
  (skipped
     (selected_ids_of (zone_name_to_ids (categories (coco_data env)))
        (map lower args_zones)) ann = false <->
   exists cat zone,
     In cat (categories (coco_data env)) /\
     cat_id cat = category_id ann /\
     In zone args_zones /\ lower (cat_name cat) = lower zone).
Proof.
  intros Hne. unfold skipped, selected_ids_of in *.
  rewrite resolve_zones_ids in *.
  set (ids := flat_map _ _) in *.
  destruct ids as [|i ids'] eqn:E; [congruence|]. cbn [is_empty negb andb].
  rewrite negb_false_iff, <- E, existsb_exists. subst ids. split.
  - intros (id & Hin & Heq). apply Z.eqb_eq in Heq. subst id.
    apply in_flat_map in Hin as (z & Hz & Hin).
    apply in_category_ids in Hin as (cat & Hc & Hn & Hid).
    apply in_map_iff in Hz as (zone & <- & Hzone).
    exists cat, zone. auto.
  - intros (cat & zone & Hc & Hid & Hzone & Hn).
    exists (category_id ann). split; [|apply Z.eqb_refl].
    apply in_flat_map. exists (lower zone).
    split; [apply in_map, Hzone|].
    apply in_category_ids. exists cat. auto.
Qed.

Lemma selection_by_name_witness :
  skipped
    (selected_ids_of (zone_name_to_ids (categories two_polygons))
       (map lower ["hEaRt"%string]))
    {| ann_id := 2; category_id := 1; segmentation := diamond 26 |} = false
  <->
  exists cat zone,
    In cat (categories two_polygons) /\
    cat_id cat = 1%Z /\
    In zone ["hEaRt"%string] /\ lower (cat_name cat) = lower zone.
Proof.
  apply (selection_by_name (demo_env 400 120 two_polygons) ["hEaRt"%string]
           {| ann_id := 2; category_id := 1; segmentation := diamond 26 |}).
  vm_compute. discriminate.
Defined.

(** ** Letter case *)

Lemma lower_upper_ascii (c : ascii) :
  lower_ascii (upper_ascii c) = lower_ascii c.
Proof. destruct c as [[] [] [] [] [] [] [] []]; reflexivity. Qed.

Lemma lower_lower_ascii (c : ascii) :
  lower_ascii (lower_ascii c) = lower_ascii c.
Proof. destruct c as [[] [] [] [] [] [] [] []]; reflexivity. Qed.

Lemma lower_upper (s : string) : lower (upper s) = lower s.
Proof.
  induction s as [|c s IH]; [reflexivity|].
  cbn [upper lower]. rewrite lower_upper_ascii, IH. reflexivity.
Qed.

Lemma lower_lower (s : string) : lower (lower s) = lower s.
Proof.
  induction s as [|c s IH]; [reflexivity|].
  cbn [lower]. rewrite lower_lower_ascii, IH. reflexivity.
Qed.

(** X3: for zone names of ASCII characters the run does not see the
    casing: the names in upper case, or in lower case, give the very same
    result as the names as typed. *)
Theorem run_ignores_case (env : Env) (args_zones : list string)
    (output_file : string) (files : Files) :
  Forall (fun zone => plain zone = true) args_zones ->
  run env (map upper args_zones) output_file files =
    run env args_zones output_file files /\
  run env (map lower args_zones) output_file files =
    run env args_zones output_file files.
Proof.
  intros _. unfold run. rewrite !map_map.
  rewrite (map_ext _ _ lower_upper), (map_ext _ _ lower_lower).
  split; reflexivity.
Qed.

Lemma run_ignores_case_witness :
  run (demo_env 120 120 one_zone) (map upper ["hEaRt"%string]) "out.ply" ∅ =
    run (demo_env 120 120 one_zone) ["hEaRt"%string] "out.ply" ∅ /\
  run (demo_env 120 120 one_zone) (map lower ["hEaRt"%string]) "out.ply" ∅ =
    run (demo_env 120 120 one_zone) ["hEaRt"%string] "out.ply" ∅.
Proof.
  apply (run_ignores_case (demo_env 120 120 one_zone) ["hEaRt"%string]
           "out.ply" ∅).
  repeat constructor.
Defined.

(** ** Counters and per-zone counts *)

(** X4: at the end of the placement the bump counter, the number of bump
    meshes, the number of recorded surface points and the number of
    successful rays are one and the same number. *)
Theorem counters_agree (env : Env) (selected_ids : list Z) :
  spike_count (placement env selected_ids) =
    length (spikes (placement env selected_ids)) /\
  spike_count (placement env selected_ids) =
    length (bump_locations (placement env selected_ids)) /\
  spike_count (placement env selected_ids) =
    ray_casting_successes (placement env selected_ids).
Proof.
  apply (placement_invariant env
           (fun st => spike_count st = length (spikes st) /\
                      spike_count st = length (bump_locations st) /\
                      spike_count st = ray_casting_successes st));
    cbn; intros; rewrite ?length_app; cbn; lia.
Qed.

Lemma total_count_fresh (m : gmap string nat) (k : string) (n : nat) :
  m !! k = None -> total_count (<[k := n]> m) = (n + total_count m)%nat.
Proof.
  intros H. unfold total_count.
  rewrite map_fold_insert_L; [reflexivity | intros; lia | assumption].
Qed.

Lemma total_count_bump (m : gmap string nat) (k : string) :
  total_count (<[k := S (default O (m !! k))]> m) = S (total_count m).
Proof.
  destruct (m !! k) as [v|] eqn:E; cbn.
  - rewrite <- (insert_delete_id m k v E) at 2.
    rewrite <- insert_delete_eq.
    rewrite !total_count_fresh by apply lookup_delete_eq. lia.
  - rewrite total_count_fresh by assumption. lia.
Qed.

Lemma total_count_zeros {A} (m : gmap string A) :
  total_count ((fun _ => O) <$> m) = O.
Proof.
  induction m as [|k x m Hk IH] using map_ind.
  - rewrite fmap_empty. apply map_fold_empty.
  - rewrite fmap_insert, total_count_fresh, IH; [reflexivity|].
    rewrite lookup_fmap, Hk. reflexivity.
Qed.

Lemma total_count_positive (m : gmap string nat) :
  total_count (filter (fun kv => (0 < snd kv)%nat) m) = total_count m.
Proof.
  induction m as [|k x m Hk IH] using map_ind.
  - rewrite map_filter_empty. reflexivity.
  - rewrite total_count_fresh by assumption.
    destruct (decide (0 < x)%nat) as [Hx|Hx].
    + rewrite map_filter_insert_True by assumption.
      rewrite total_count_fresh, IH; [reflexivity|].
      apply map_lookup_filter_None. left. assumption.
    + rewrite map_filter_insert_False by assumption.
      rewrite delete_id by assumption. rewrite IH. cbn in Hx. lia.
Qed.

Lemma zone_bumps_total (env : Env) (selected_ids : list Z) :
  total_count (zone_bumps (placement env selected_ids)) =
  spike_count (placement env selected_ids).
Proof.
  apply (placement_invariant env
           (fun st => total_count (zone_bumps st) = spike_count st));
    cbn; intros; try assumption.
  - rewrite total_count_bump. congruence.
  - apply total_count_zeros.
Qed.

(** X5: in the report, every per-zone count is positive and the per-zone
    counts add up to the total number of bumps. *)
Theorem report_counts_add_up (env : Env) (selected_ids : list Z) :
  total_count
    (report_zone_bumps (report_of env (placement env selected_ids))) =
  report_total_bumps (report_of env (placement env selected_ids)) /\
  (forall zone n,
     report_zone_bumps (report_of env (placement env selected_ids)) !! zone
       = Some n -> (0 < n)%nat).
Proof.
  cbn [report_of report_zone_bumps report_total_bumps]. split.
  - rewrite total_count_positive. apply zone_bumps_total.
  - intros zone n H. apply map_lookup_filter_Some in H as [_ H]. exact H.
Qed.

(** ** Mapping accuracy *)

Lemma locations_counted (env : Env) (selected_ids : list Z) :
  spike_count (placement env selected_ids) =
  length (bump_locations (placement env selected_ids)).
Proof.
  apply (placement_invariant env
           (fun st => spike_count st = length (bump_locations st)));
    cbn; intros; rewrite ?length_app; cbn; lia.
Qed.

(** X6: the mapping accuracy lies between 0 and 100, and is 0 when no bump
    was placed. *)
Theorem placement_accuracy_bounds (env : Env) (selected_ids : list Z) :
  (0 <= placement_accuracy env
          (mapper_of (sole_model env) (coco_data env))
          (placement env selected_ids) /\
   placement_accuracy env
     (mapper_of (sole_model env) (coco_data env))
     (placement env selected_ids) <= 100) /\
  (spike_count (placement env selected_ids) = 0%nat ->
   placement_accuracy env
     (mapper_of (sole_model env) (coco_data env))
     (placement env selected_ids) = 0).
Proof.
  pose proof (locations_counted env selected_ids) as Hlen.
  unfold placement_accuracy.
  destruct (0 <? spike_count (placement env selected_ids))%nat eqn:E.
  - apply Nat.ltb_lt in E. split; [|lia].
    apply percent_bounds; [|assumption].
    unfold correct_placements. rewrite Hlen. apply filter_length_le.
  - split; [split; discriminate | reflexivity].
Qed.

(** ** The stored zone paths *)

Lemma samples_keep_zone_paths (env : Env) mp top_z zone_name color path pts
    (acc : State * nat) :
  zone_paths (fst (fold_left (sample env mp top_z zone_name color path)
                     pts acc)) = zone_paths (fst acc).
Proof.
  apply (samples_invariant env
           (fun st => zone_paths st = zone_paths (fst acc)));
    cbn; intros; solve [assumption | reflexivity].
Qed.

Lemma process_annotation_zone_paths (env : Env) mp top_z selected_ids st ann :
  zone_paths (process_annotation env mp top_z selected_ids st ann) =
  fold_left store_path
    (if skipped selected_ids ann then []
     else
       match usable_name
               (zone_name_of (categories (coco_data env))
                  (category_id ann)) with
       | Some zone_name => [(zone_name, segmentation ann)]
       | None => []
       end)
    (zone_paths st).
Proof.
  unfold process_annotation.
  destruct (skipped selected_ids ann); [reflexivity|].
  unfold process_body.
  destruct (usable_name _) as [zone_name|]; [|reflexivity].
  destruct (bounding_box _) as [[lo hi]|]; [|reflexivity].
  pose proof (samples_keep_zone_paths env mp top_z zone_name
                (color_of zone_name) (segmentation ann) (grid lo hi step)
                (set_zone_path zone_name (segmentation ann) st, O)) as H.
  destruct (fold_left _ _ _) as [st2 n]. cbn [fst] in H.
  destruct (Nat.eqb n 0); cbn; rewrite H; reflexivity.
Qed.

Lemma placement_zone_paths (env : Env) (selected_ids : list Z) :
  zone_paths (placement env selected_ids) =
  fold_left store_path (processed_polygons env selected_ids) ∅.
Proof.
  unfold placement, processed_polygons.
  change (∅ : gmap string Path) with
    (zone_paths
       (initial_state (zone_name_to_ids (categories (coco_data env))))).
  generalize (initial_state (zone_name_to_ids (categories (coco_data env)))).
  induction (annotations (coco_data env)) as [|ann anns IH]; intros st;
    [reflexivity|].
  cbn [fold_left flat_map]. rewrite fold_left_app, IH.
  rewrite process_annotation_zone_paths. reflexivity.
Qed.

Lemma store_path_last (name : string) (l : list (string * Path)) :
  forall m0 : gmap string Path,
    fold_left store_path l m0 !! name =
    match last (List.filter (fun kv => String.eqb (fst kv) name) l) with
    | Some kv => Some (snd kv)
    | None => m0 !! name
    end.
Proof.
  induction l as [|[k v] l IH]; intros m0; [reflexivity|].
  cbn [fold_left List.filter fst]. rewrite IH. unfold store_path.
  cbn [fst snd]. destruct (String.eqb k name) eqn:E.
  - apply String.eqb_eq in E. subst k. rewrite lookup_insert_eq.
    destruct (List.filter (fun kv => String.eqb (fst kv) name) l)
      as [|kv fl] eqn:F; [reflexivity|].
    change (last ((name, v) :: kv :: fl)) with (last (kv :: fl)).
    destruct (last (kv :: fl)) eqn:L; [reflexivity|].
    apply last_None in L. discriminate.
  - apply String.eqb_neq in E. rewrite lookup_insert_ne by assumption.
    reflexivity.
Qed.

(** X7: after the placement, the path stored for a zone name is the
    polygon of the last processed annotation of that zone, and a name with
    no processed annotation has no path; earlier polygons of the zone are
    not kept. *)
Theorem zone_paths_last_polygon (env : Env) (selected_ids : list Z)
    (name : string) :
  zone_paths (placement env selected_ids) !! name =
  snd <$> last (List.filter (fun kv => String.eqb (fst kv) name)
                  (processed_polygons env selected_ids)).
Proof.
  rewrite placement_zone_paths, store_path_last, lookup_empty.
  destruct (last _); reflexivity.
Qed.

(** ** What a hit knows about its ray *)

Section PlacementTrace.
Context (env : Env) (mp : Mapper) (top_z : Q) (Inv : State -> Prop).

Hypothesis Inv_warn : forall msg st, Inv st -> Inv (warn msg st).
Hypothesis Inv_path :
  forall zone_name path st, Inv st -> Inv (set_zone_path zone_name path st).
Hypothesis Inv_miss : forall st, Inv st -> Inv (miss st).
Hypothesis Inv_hit :
  forall zone_name color path pt z3d loc st,
    contains_point env path pt = true ->
    surface_point
      (intersects_location (sole_model env)
         (ray_origin top_z (fst (map_2d_to_3d mp (fst pt) (snd pt)))
                           (snd (map_2d_to_3d mp (fst pt) (snd pt))))
         down) = Some (z3d, loc) ->
    Inv st ->
    Inv (hit zone_name color
           (fst (map_2d_to_3d mp (fst pt) (snd pt)))
           (snd (map_2d_to_3d mp (fst pt) (snd pt))) z3d loc st).



End PlacementTrace.


Lemma slab_vertical (w h top : Q) : vertical_hits (slab w h top).
Proof.
  intros origin direction loc. cbn.
  destruct (_ && _); [|intros []].
  intros [<-|[<-|[]]]; split; reflexivity.
Qed.



(** ** Positional error *)






(** ** Shape of the dome *)

Lemma linspace_length (start stop : R) (num : nat) :
  length (linspace start stop num) = num.
Proof. unfold linspace. rewrite length_map, length_seq. reflexivity. Qed.

Lemma dome_vertices_length (rx ry rz : R) (sections stacks : nat) :
  length (dome_vertices rx ry rz sections stacks) = (stacks * sections)%nat.
Proof.
  unfold dome_vertices. rewrite (flat_map_constant_length (c := sections)).
  - rewrite linspace_length. reflexivity.
  - intros v _. rewrite length_map. apply linspace_length.
Qed.

(** X10: the arrays handed to the mesh constructor are consistent: the
    vertex array has [stacks * sections] rows, the face list
    [2 * (stacks - 1) * (sections - 1)] triangles, and every index of every
    triangle is a row of the vertex array. *)
Theorem dome_arrays_well_formed (rx ry rz : R) (sections stacks : nat) :
  length (dome_vertices rx ry rz sections stacks) = (stacks * sections)%nat /\
  length (dome_faces sections stacks) =
    (2 * ((stacks - 1) * (sections - 1)))%nat /\
  (forall a b c,
     In (a, b, c) (dome_faces sections stacks) ->
     (a < length (dome_vertices rx ry rz sections stacks) /\
      b < length (dome_vertices rx ry rz sections stacks) /\
      c < length (dome_vertices rx ry rz sections stacks))%nat).
Proof.
  rewrite dome_vertices_length. split; [reflexivity|]. split.
  - unfold dome_faces.
    rewrite (flat_map_constant_length (c := (2 * (sections - 1))%nat)).
    + rewrite length_seq. lia.
    + intros i _.
      rewrite (flat_map_constant_length (c := 2%nat));
        [rewrite length_seq; lia | reflexivity].
  - intros a b c H. unfold dome_faces in H.
    apply in_flat_map in H as (i & Hi & H).
    apply in_flat_map in H as (j & Hj & H).
    apply in_seq in Hi, Hj.
    assert (Hb : ((i + 2) * sections <= stacks * sections)%nat)
      by (apply Nat.mul_le_mono_r; lia).
    destruct H as [H|[H|[]]]; injection H as <- <- <-; lia.
Qed.

Lemma sin_cos_unit (x : R) : (sin x * sin x + cos x * cos x = 1)%R.
Proof. pose proof (sin2_cos2 x) as H. unfold Rsqr in H. exact H. Qed.

(** Every vertex comes from an angle [u] and an elevation [v] with
    [0 <= cos v <= 1]. *)
Lemma dome_vertex_form (rx ry rz : R) (sections stacks : nat) (p : Point) :
  In p (dome_vertices rx ry rz sections stacks) ->
  exists u v,
    p = (rx * cos u * sin v, ry * sin u * sin v, rz * cos v)%R /\
    (0 <= cos v <= 1)%R.
Proof.
  intros Hin. unfold dome_vertices in Hin.
  apply in_flat_map in Hin as (v & Hv & Hp).
  apply in_map_iff in Hp as (u & <- & _). exists u, v.
  split; [reflexivity|].
  apply linspace_range in Hv; [|pose proof PI_RGT_0; lra].
  split; [apply cos_ge_0; lra | apply COS_bound].
Qed.

(** X11: every vertex of the dome lies on the ellipsoid with semi-axes
    [rx], [ry], [rz], in its upper half, no higher than [rz]. *)
Theorem dome_on_ellipsoid (rx ry rz : R) (sections stacks : nat)
    (x y z : R) :
  (0 < rx)%R -> (0 < ry)%R -> (0 < rz)%R ->
  In (x, y, z) (dome_vertices rx ry rz sections stacks) ->
  ((x / rx) ^ 2 + (y / ry) ^ 2 + (z / rz) ^ 2 = 1)%R /\
  (0 <= z <= rz)%R.
Proof.
  intros Hx Hy Hz Hin.
  apply dome_vertex_form in Hin as (u & v & [= -> -> ->] & Hc).
  pose proof (sin_cos_unit u) as Hu. pose proof (sin_cos_unit v) as Hv.
  split; [|nra].
  replace ((rx * cos u * sin v / rx) ^ 2 + (ry * sin u * sin v / ry) ^ 2 +
           (rz * cos v / rz) ^ 2)%R
    with (sin v * sin v * (sin u * sin u + cos u * cos u) +
          cos v * cos v)%R by (field; lra).
  rewrite Hu. lra.
Qed.

Lemma dome_on_ellipsoid_witness :
  let '(x, y, z) :=
    hd (0, 0, 0)%R
       (dome_vertices bump_radius bump_radius bump_height 20 10) in
  ((x / bump_radius) ^ 2 + (y / bump_radius) ^ 2 +
   (z / bump_height) ^ 2 = 1)%R /\
  (0 <= z <= bump_height)%R.
Proof.
  pose proof (dome_vertices_length bump_radius bump_radius bump_height 20 10)
    as Hlen.
  destruct (dome_vertices bump_radius bump_radius bump_height 20 10)
    as [|[[x y] z] l] eqn:E; [discriminate|].
  cbn [hd].
  apply (dome_on_ellipsoid bump_radius bump_radius bump_height 20 10 x y z);
    [unfold bump_radius; lra | unfold bump_radius; lra
     | unfold bump_height; lra | rewrite E; left; reflexivity].
Defined.

(** X12: every vertex of a placed bump lies within [bump_radius] of the
    bump's axis and between the base height and [bump_height] above it. *)
Theorem bump_mesh_extent (b : Bump) (x y z : R) :
  In (x, y, z) (vertices (bump_mesh b)) ->
  ((x - Q2R (vx (translation b))) ^ 2 + (y - Q2R (vy (translation b))) ^ 2
     <= bump_radius ^ 2)%R /\
  (Q2R (vz (translation b)) <= z <= Q2R (vz (translation b)) + bump_height)%R.
Proof.
  unfold bump_mesh, apply_translation. cbn [vertices create_ellipsoid_bump].
  intros Hin. apply in_map_iff in Hin as ([[x0 y0] z0] & [= <- <- <-] & Hd).
  apply dome_vertex_form in Hd as (u & v & [= -> -> ->] & Hc).
  pose proof (sin_cos_unit u) as Hu. pose proof (sin_cos_unit v) as Hv.
  unfold bump_radius, bump_height. split; [|nra].
  replace ((2.5 * cos u * sin v + Q2R (vx (translation b)) -
            Q2R (vx (translation b))) ^ 2 +
           (2.5 * sin u * sin v + Q2R (vy (translation b)) -
            Q2R (vy (translation b))) ^ 2)%R
    with (2.5 ^ 2 * (sin v * sin v * (sin u * sin u + cos u * cos u)))%R
    by ring.
  rewrite Hu. nra.
Qed.

Lemma bump_mesh_extent_witness :
  let b := {| translation := mkVec3 60 80 (5 + z_offset);
              vertex_colors := default_color |} in
  let '(x, y, z) := hd (0, 0, 0)%R (vertices (bump_mesh b)) in
  ((x - Q2R 60) ^ 2 + (y - Q2R 80) ^ 2 <= bump_radius ^ 2)%R /\
  (Q2R (5 + z_offset) <= z <= Q2R (5 + z_offset) + bump_height)%R.
Proof.
  cbv zeta.
  pose proof (dome_vertices_length bump_radius bump_radius bump_height 20 10)
    as Hlen.
  unfold bump_mesh, apply_translation.
  cbn [vertices create_ellipsoid_bump translation].
  destruct (dome_vertices bump_radius bump_radius bump_height 20 10)
    as [|[[x y] z] l] eqn:E; [discriminate|].
  cbn [map hd].
  apply (bump_mesh_extent
           {| translation := mkVec3 60 80 (5 + z_offset);
              vertex_colors := default_color |}).
  unfold bump_mesh, apply_translation.
  cbn [vertices create_ellipsoid_bump translation].
  rewrite E. left. reflexivity.
Defined.

(** ** The mapped image frame *)

(** X13: the image's bottom-left corner maps to the bounding box's minimum
    corner moved by the 10 mm margin, and its top-right corner to the
    bounding box's maximum corner moved by the same margin: the mapped
    image is the bounding box shifted by 10 mm along x and y. *)
Theorem image_frame_on_sole (mesh : Trimesh) (coco : Coco) :
  ~ img_width coco == 0 -> ~ img_height coco == 0 ->
  (fst (map_2d_to_3d (mapper_of mesh coco) 0 (img_height coco))
     == vx (fst (bounds mesh)) + 10 /\
   snd (map_2d_to_3d (mapper_of mesh coco) 0 (img_height coco))
     == vy (fst (bounds mesh)) + 10) /\
  (fst (map_2d_to_3d (mapper_of mesh coco) (img_width coco) 0)
     == vx (snd (bounds mesh)) + 10 /\
   snd (map_2d_to_3d (mapper_of mesh coco) (img_width coco) 0)
     == vy (snd (bounds mesh)) + 10).
Proof.
  intros Hw Hh. unfold map_2d_to_3d, mapper_of.
  cbn [origin_x origin_y x_scale y_scale height_px fst snd].
  repeat split; field; assumption.
Qed.

Lemma image_frame_on_sole_witness :
  fst (map_2d_to_3d (mapper_of (slab 120 120 5) one_zone) 12 0) == 130 /\
  snd (map_2d_to_3d (mapper_of (slab 120 120 5) one_zone) 12 0) == 130.
Proof.
  destruct (image_frame_on_sole (slab 120 120 5) one_zone) as [_ H];
    [discriminate | discriminate | exact H].
Defined.

(** X14: the inverse transform is also a right inverse: re-projecting a
    point of the sole's plane into the image and mapping it again returns
    the point, provided neither scale factor is zero. *)
Theorem reproject_then_map (mp : Mapper) (x3d y3d : Q) :
  ~ x_scale mp == 0 -> ~ y_scale mp == 0 ->
  fst (map_2d_to_3d mp (fst (map_3d_to_2d mp x3d y3d))
                       (snd (map_3d_to_2d mp x3d y3d))) == x3d /\
  snd (map_2d_to_3d mp (fst (map_3d_to_2d mp x3d y3d))
                       (snd (map_3d_to_2d mp x3d y3d))) == y3d.
Proof.
  intros Hx Hy. unfold map_3d_to_2d, map_2d_to_3d. cbn [fst snd].
  split; field; assumption.
Qed.

Lemma reproject_then_map_witness :
  let mp := mapper_of (slab 120 120 5) one_zone in
  fst (map_2d_to_3d mp (fst (map_3d_to_2d mp 60 80))
                       (snd (map_3d_to_2d mp 60 80))) == 60 /\
  snd (map_2d_to_3d mp (fst (map_3d_to_2d mp 60 80))
                       (snd (map_3d_to_2d mp 60 80))) == 80.
Proof.
  apply (reproject_then_map (mapper_of (slab 120 120 5) one_zone) 60 80);
    vm_compute; discriminate.
Defined.

(** ** Export and exit code *)

Lemma replace_ply_differs (s : string) :
  str_contains ".ply" s = true -> stl_output_of s <> s.
Proof.
  unfold stl_output_of, replace.
  induction s as [|c s IH]; intros H; [discriminate|].
  cbn [str_contains] in H. cbn [replace_from].
  destruct (String.prefix ".ply" (String c s)) eqn:Hp.
  - cbn [String.prefix] in Hp.
    destruct (ascii_dec "." c) as [<-|]; [|discriminate].
    destruct s as [|c1 s]; [discriminate|]. cbn [String.prefix] in Hp.
    destruct (ascii_dec "p" c1) as [<-|]; [|discriminate].
    cbn [String.append]. intros E. discriminate E.
  - cbn [orb] in H. intros E. injection E as E. exact (IH H E).
Qed.

(** X15: when the output file name contains [.ply] and the library can
    write both names, the export leaves two different files on disk, both
    holding the combined mesh. *)
Theorem export_two_files (env : Env) (combined : Combined)
    (output_file : string) (files : Files) :
  str_contains ".ply" output_file = true ->
  can_export env output_file = true ->
  can_export env (stl_output_of output_file) = true ->
  stl_output_of output_file <> output_file /\
  snd (fst (export_step env combined output_file files)) =
    [output_file; stl_output_of output_file] /\
  fst (fst (export_step env combined output_file files)) !! output_file
    = Some combined /\
  fst (fst (export_step env combined output_file files))
    !! stl_output_of output_file = Some combined.
Proof.
  intros Hc H1 H2. pose proof (replace_ply_differs _ Hc) as Hne.
  unfold export_step. rewrite H1, H2. cbn [fst snd].
  split; [assumption|]. split; [reflexivity|]. split.
  - rewrite lookup_insert_ne by assumption. apply lookup_insert_eq.
  - apply lookup_insert_eq.
Qed.

Lemma export_two_files_witness :
  stl_output_of "sole_with_spikes_left.ply" <> "sole_with_spikes_left.ply"%string /\
  snd (fst (export_step (demo_env 120 120 one_zone) {| pieces := [] |}
              "sole_with_spikes_left.ply" ∅)) =
    ["sole_with_spikes_left.ply"%string;
     stl_output_of "sole_with_spikes_left.ply"].
Proof.
  destruct (export_two_files (demo_env 120 120 one_zone) {| pieces := [] |}
              "sole_with_spikes_left.ply" ∅) as (H1 & H2 & _);
    [reflexivity | reflexivity | reflexivity |].
  split; assumption.
Defined.

(** X16: the run exits with 0 exactly when it did not stop on unmatched
    names and both exports succeeded; it prints its report exactly then;
    and when only the second export fails, it exits with 1 although the
    first file has been written. *)
Theorem exit_code_and_report (env : Env) (args_zones : list string)
    (output_file : string) (files : Files) :
  (exit_code (run env args_zones output_file files) = 0%Z <->
   no_match
     (selected_ids_of (zone_name_to_ids (categories (coco_data env)))
        (map lower args_zones))
     (map lower args_zones) = false /\
   can_export env output_file = true /\
   can_export env (stl_output_of output_file) = true) /\
  (is_Some (report (run env args_zones output_file files)) <->
   exit_code (run env args_zones output_file files) = 0%Z) /\
  (exit_code (run env args_zones output_file files) = 0%Z \/
   exit_code (run env args_zones output_file files) = 1%Z) /\
  (no_match
     (selected_ids_of (zone_name_to_ids (categories (coco_data env)))
        (map lower args_zones))
     (map lower args_zones) = false ->
   can_export env output_file = true ->
   can_export env (stl_output_of output_file) = false ->
   exit_code (run env args_zones output_file files) = 1%Z /\
   written (run env args_zones output_file files) = [output_file] /\
   is_Some (files_after (run env args_zones output_file files)
              !! output_file)).
Proof.
  unfold run, selected_ids_of, export_step.
  destruct (resolve_zones _ (map lower args_zones)) as [ids warns].
  cbn [fst].
  destruct (no_match ids (map lower args_zones));
    destruct (can_export env output_file);
    destruct (can_export env (stl_output_of output_file));
    cbn; rewrite ?lookup_insert_eq;
    repeat split; intros; try discriminate; try tauto; eauto;
    try (destruct H as [? H]; discriminate H);
    try (destruct H as (? & ? & ?); discriminate).
Qed.

Lemma exit_code_and_report_witness :
  let env := {| sole_model := slab 120 120 5; coco_data := one_zone;
                contains_point := even_odd;
                can_export := fun f => String.eqb f "out.ply" |} in
  exit_code (run env [] "out.ply" ∅) = 1%Z /\
  written (run env [] "out.ply" ∅) = ["out.ply"%string] /\
  is_Some (files_after (run env [] "out.ply" ∅) !! "out.ply"%string).
Proof.
  cbv zeta.
  destruct (exit_code_and_report
              {| sole_model := slab 120 120 5; coco_data := one_zone;
                 contains_point := even_odd;
                 can_export := fun f => String.eqb f "out.ply" |}
              [] "out.ply" ∅) as (_ & _ & _ & H).
  apply H; reflexivity.
Defined.

(** ** Bump spacing *)

Lemma indexed_from (A : Type) (l : list A) (j : nat) (x : A) :
  forall s,
    In (j, x) (combine (seq s (length l)) l) <->
    (s <= j)%nat /\ l !! (j - s)%nat = Some x.
Proof.
  induction l as [|a l IH]; intros s; cbn [length seq combine In].
  - split; [intros [] | intros [_ H]; discriminate H].
  - rewrite IH. split.
    + intros [[= <- <-]|[Hle Hl]].
      * split; [lia|]. rewrite Nat.sub_diag. reflexivity.
      * split; [lia|]. replace (j - s)%nat with (S (j - S s)) by lia.
        exact Hl.
    + intros [Hle Hl]. destruct (Nat.eq_dec s j) as [->|Hne].
      * left. rewrite Nat.sub_diag in Hl. cbn in Hl. congruence.
      * right. split; [lia|].
        replace (j - s)%nat with (S (j - S s)) in Hl by lia. exact Hl.
Qed.

Lemma indexed_lookup (A : Type) (l : list A) (j : nat) (x : A) :
  In (j, x) (indexed l) <-> l !! j = Some x.
Proof.
  unfold indexed. rewrite indexed_from, Nat.sub_0_r.
  split; [intros [_ H]; exact H | intros H; split; [lia | exact H]].
Qed.

Lemma nearer_fold (i : nat) (loc_i : Vec3) (l : list (nat * Vec3)) :
  forall md : option R,
    (forall m0, md = Some m0 -> (0 < m0)%R) ->
    match fold_left (nearer i loc_i) l md with
    | Some m =>
        (0 < m)%R /\
        (md = Some m \/
         exists j loc_j, In (j, loc_j) l /\ j <> i /\
                         m = distance loc_i loc_j) /\
        (forall m0, md = Some m0 -> (m <= m0)%R) /\
        (forall j loc_j, In (j, loc_j) l -> j <> i ->
                         (0 < distance loc_i loc_j)%R ->
                         (m <= distance loc_i loc_j)%R)
    | None =>
        md = None /\
        forall j loc_j, In (j, loc_j) l -> j <> i ->
                        ~ (0 < distance loc_i loc_j)%R
    end.
Proof.
  induction l as [|[j loc_j] l IH]; intros md Hpos; cbn [fold_left].
  - destruct md as [m|].
    + split; [apply Hpos; reflexivity|]. split; [left; reflexivity|].
      split; [intros m0 [= <-]; lra | intros ? ? []].
    + split; [reflexivity | intros ? ? []].
  - assert (Hstep :
      (forall m1, nearer i loc_i md (j, loc_j) = Some m1 -> (0 < m1)%R) /\
      (forall m1, nearer i loc_i md (j, loc_j) = Some m1 ->
         (md = Some m1 \/ (j <> i /\ m1 = distance loc_i loc_j)) /\
         (forall m0, md = Some m0 -> (m1 <= m0)%R) /\
         (j <> i -> (0 < distance loc_i loc_j)%R ->
          (m1 <= distance loc_i loc_j)%R)) /\
      (nearer i loc_i md (j, loc_j) = None ->
         md = None /\ (j <> i -> ~ (0 < distance loc_i loc_j)%R))).
    { unfold nearer. cbn [fst snd].
      destruct (Nat.eqb_spec i j) as [->|Hij].
      - split; [exact Hpos|]. split.
        + intros m1 ->. split; [left; reflexivity|].
          split; [intros m0 [= <-]; lra | congruence].
        + intros ->. split; [reflexivity | congruence].
      - destruct (Rlt_dec 0 (distance loc_i loc_j)) as [Hd|Hd].
        + destruct md as [m0|].
          * specialize (Hpos m0 eq_refl).
            destruct (Rlt_dec (distance loc_i loc_j) m0) as [Hlt|Hge].
            -- split; [intros m1 [= <-]; assumption|]. split.
               ++ intros m1 [= <-]. split; [right; split; congruence|].
                  split; [intros m2 [= <-]; lra | intros; lra].
               ++ discriminate.
            -- split; [intros m1 [= <-]; assumption|]. split.
               ++ intros m1 [= <-]. split; [left; reflexivity|].
                  split; [intros m2 [= <-]; lra | intros; lra].
               ++ discriminate.
          * split; [intros m1 [= <-]; assumption|]. split.
            -- intros m1 [= <-]. split; [right; split; congruence|].
               split; [discriminate | intros; lra].
            -- discriminate.
        + split; [exact Hpos|]. split.
          * intros m1 ->. split; [left; reflexivity|].
            split; [intros m0 [= <-]; lra | intros; contradiction].
          * intros ->. split; [reflexivity | intros _; exact Hd]. }
    destruct Hstep as (Hpos' & Hsome & Hnone).
    specialize (IH _ Hpos').
    destruct (fold_left (nearer i loc_i) l (nearer i loc_i md (j, loc_j)))
      as [m|].
    + destruct IH as (Hm & Hfrom & Hle & Hmin). split; [assumption|].
      destruct (nearer i loc_i md (j, loc_j)) as [m1|] eqn:E.
      * destruct (Hsome m1 eq_refl) as (Hor & Hle1 & Hmin1).
        specialize (Hle m1 eq_refl). split; [|split].
        -- destruct Hfrom as [[= <-]|(j' & l' & Hin & Hne & Heq)].
           ++ destruct Hor as [Hor|[Hne Heq]]; [left; assumption|].
              right. exists j, loc_j. split; [left; reflexivity|]. auto.
           ++ right. exists j', l'. split; [right; assumption|]. auto.
        -- intros m0 Hm0. specialize (Hle1 m0 Hm0). lra.
        -- intros j' l' [[= <- <-]|Hin] Hne Hd.
           ++ specialize (Hmin1 Hne Hd). lra.
           ++ eapply Hmin; eassumption.
      * destruct (Hnone eq_refl) as [-> Hz]. split; [|split].
        -- destruct Hfrom as [Hfrom|(j' & l' & Hin & Hne & Heq)];
             [discriminate|].
           right. exists j', l'. split; [right; assumption|]. auto.
        -- discriminate.
        -- intros j' l' [[= <- <-]|Hin] Hne Hd.
           ++ exfalso. exact (Hz Hne Hd).
           ++ eapply Hmin; eassumption.
    + destruct IH as [E Hz]. destruct (Hnone E) as [-> Hz0].
      split; [reflexivity|].
      intros j' l' [[= <- <-]|Hin] Hne; [apply Hz0, Hne | eapply Hz; eassumption].
Qed.

(** X17: the nearest-neighbour distance computed for bump [i] is the
    distance to some other bump, it is positive, and no other bump at a
    positive distance is nearer; no distance is produced exactly when every
    other bump sits at distance 0. *)
Theorem min_distance_nearest (locs : list Vec3) (i : nat) (loc_i : Vec3) :
  match min_distance_of locs i loc_i with
  | Some m =>
      (0 < m)%R /\
      (exists j loc_j, locs !! j = Some loc_j /\ j <> i /\
                       m = distance loc_i loc_j) /\
      (forall j loc_j, locs !! j = Some loc_j -> j <> i ->
                       (0 < distance loc_i loc_j)%R ->
                       (m <= distance loc_i loc_j)%R)
  | None =>
      forall j loc_j, locs !! j = Some loc_j -> j <> i ->
                      distance loc_i loc_j = 0%R
  end.
Proof.
  unfold min_distance_of.
  pose proof (nearer_fold i loc_i (indexed locs) None) as H.
  destruct (fold_left (nearer i loc_i) (indexed locs) None) as [m|].
  - destruct H as (Hm & Hfrom & _ & Hmin); [discriminate|].
    split; [assumption|]. split.
    + destruct Hfrom as [|(j & loc_j & Hin & Hne & Heq)]; [discriminate|].
      exists j, loc_j. rewrite <- indexed_lookup. auto.
    + intros j loc_j Hl. apply Hmin, indexed_lookup, Hl.
  - destruct H as [_ Hz]; [discriminate|].
    intros j loc_j Hl Hne. apply indexed_lookup in Hl.
    specialize (Hz j loc_j Hl Hne).
    pose proof (sqrt_pos ((Q2R (vx loc_i) - Q2R (vx loc_j)) ^ 2 +
                          (Q2R (vy loc_i) - Q2R (vy loc_j)) ^ 2 +
                          (Q2R (vz loc_i) - Q2R (vz loc_j)) ^ 2)) as Hp.
    unfold distance in *. lra.
Qed.

Lemma bump_spacing_positive (locs : list Vec3) :
  Forall (fun d => (0 < d)%R) (bump_spacing locs).
Proof.
  unfold bump_spacing. destruct (1 <? length locs)%nat; [|constructor].
  apply Forall_forall. intros d Hd.
  apply list_elem_of_omap in Hd as ([i loc_i] & _ & Hd). cbn [fst snd] in Hd.
  unfold min_distance_of in Hd.
  pose proof (nearer_fold i loc_i (indexed locs) None) as H.
  rewrite Hd in H. apply H. discriminate.
Qed.

Lemma np_mean_positive (x : R) (l : list R) :
  Forall (fun d => (0 < d)%R) (x :: l) -> (0 < np_mean (x :: l))%R.
Proof.
  intros H. unfold np_mean.
  assert (Hs : forall k, Forall (fun d => (0 < d)%R) k ->
                         (0 <= fold_right Rplus 0 k)%R).
  { intros k Hk. induction Hk; cbn [fold_right]; lra. }
  inversion H as [|? ? Hx Hl]; subst. specialize (Hs l Hl).
  cbn [fold_right]. apply Rmult_lt_0_compat; [lra|].
  apply Rinv_0_lt_compat, lt_0_INR. cbn. lia.
Qed.

(** X18: every entry of the spacing sequence is positive; the average
    spacing is therefore always positive, and it is the sampling step
    whenever fewer than two bumps were placed. *)
Theorem avg_spacing_positive (st : State) :
  Forall (fun d => (0 < d)%R) (bump_spacing (bump_locations st)) /\
  (0 < avg_spacing st)%R /\
  ((length (bump_locations st) < 2)%nat -> avg_spacing st = Q2R step).
Proof.
  pose proof (bump_spacing_positive (bump_locations st)) as H.
  split; [assumption|]. unfold avg_spacing. split.
  - destruct (bump_spacing (bump_locations st)) as [|d l].
    + unfold Q2R, step. cbn. lra.
    + apply np_mean_positive. assumption.
  - intros Hlen. unfold bump_spacing.
    destruct (Nat.ltb_spec 1 (length (bump_locations st))); [lia|].
    reflexivity.
Qed.

Lemma avg_spacing_positive_witness :
  avg_spacing (initial_state ∅) = Q2R step.
Proof.
  destruct (avg_spacing_positive (initial_state ∅)) as (_ & _ & H).
  apply H. cbn. lia.
Defined.

(* ===================================================================== *)
(** * Part IV: the request handler and the demo                            *)
(* ===================================================================== *)

(** ** Accepted zone keys *)

Lemma existsb_eqb_In (key : string) (l : list string) :
  existsb (String.eqb key) l = true <-> In key l.
Proof.
  rewrite existsb_exists. split.
  - intros (x & Hin & Heq). apply String.eqb_eq in Heq. subst. assumption.
  - intros H. exists key. split; [assumption | apply String.eqb_refl].
Qed.

Lemma map_areas_spec (valid : gset string) (html_values : list string) :
  forall zones unknown,
    NoDup zones ->
    NoDup (fst (map_areas valid html_values zones unknown)) /\
    (forall z,
       In z (fst (map_areas valid html_values zones unknown)) <->
       In z zones \/
       (z ∈ valid /\ exists a, In a html_values /\ z = upper a)) /\
    snd (map_areas valid html_values zones unknown) =
      unknown ++
      List.filter (fun a => negb (bool_decide (upper a ∈ valid))) html_values.
Proof.
  induction html_values as [|a rest IH]; intros zones unknown Hnd;
    cbn [map_areas List.filter].
  - cbn [fst snd]. rewrite app_nil_r.
    split; [assumption|]. split; [|reflexivity].
    intros z. split; [auto | intros [H|(_ & a & [] & _)]; exact H].
  - destruct (decide (upper a ∈ valid)) as [Hv|Hv].
    + rewrite (bool_decide_eq_true_2 _ Hv). cbn [negb].
      destruct (existsb (String.eqb (upper a)) zones) eqn:E.
      * apply existsb_eqb_In in E.
        destruct (IH zones unknown Hnd) as (H1 & H2 & H3).
        split; [assumption|]. split; [|assumption].
        intros z. rewrite H2. split.
        -- intros [H|(Hz & a' & Ha' & ->)]; [auto|].
           right. split; [assumption|]. exists a'. split; [right|]; auto.
        -- intros [H|(Hz & a' & [<-|Ha'] & ->)]; [auto | auto |].
           right. split; [assumption|]. eauto.
      * assert (Hnot : ~ In (upper a) zones).
        { intros H. apply existsb_eqb_In in H. congruence. }
        assert (Hnd' : NoDup (zones ++ [upper a])).
        { apply NoDup_app. split; [assumption|].
          split; [|apply NoDup_singleton].
          intros x Hx Hx'. apply list_elem_of_In in Hx.
          apply list_elem_of_singleton in Hx'. subst. contradiction. }
        destruct (IH (zones ++ [upper a]) unknown Hnd') as (H1 & H2 & H3).
        split; [assumption|]. split; [|assumption].
        intros z. rewrite H2, in_app_iff. cbn [In]. split.
        -- intros [[H|[<-|[]]]|(Hz & a' & Ha' & ->)]; [auto | |].
           ++ right. split; [assumption|]. exists a. auto.
           ++ right. split; [assumption|]. exists a'. auto.
        -- intros [H|(Hz & a' & [<-|Ha'] & ->)]; [auto | auto |].
           right. split; [assumption|]. eauto.
    + rewrite (bool_decide_eq_false_2 _ Hv). cbn [negb].
      destruct (IH zones (unknown ++ [a]) Hnd) as (H1 & H2 & H3).
      split; [assumption|]. split.
      * intros z. rewrite H2. split.
        -- intros [H|(Hz & a' & Ha' & ->)]; [auto|].
           right. split; [assumption|]. exists a'. split; [right|]; auto.
        -- intros [H|(Hz & a' & [<-|Ha'] & ->)]; [auto | contradiction |].
           right. split; [assumption|]. eauto.
      * rewrite H3, <- app_assoc. reflexivity.
Qed.

(** X19: the keys the handler accepts are the upper-cased submitted values
    that belong to the foot's key set, each kept once; the rejected values
    are the submitted values whose upper-casing is not in the key set, in
    order. *)
Theorem accepted_zone_keys (valid : gset string) (html_values : list string) :
  NoDup (fst (map_areas valid html_values [] [])) /\
  (forall z,
     In z (fst (map_areas valid html_values [] [])) <->
     z ∈ valid /\ exists a, In a html_values /\ z = upper a) /\
  snd (map_areas valid html_values [] []) =
    List.filter (fun a => negb (bool_decide (upper a ∈ valid))) html_values.
Proof.
  destruct (map_areas_spec valid html_values [] [] (NoDup_nil_2 (A:=string)))
    as (H1 & H2 & H3).
  split; [assumption|]. split; [|assumption].
  intros z. rewrite H2. split; [intros [[]|H]; exact H | auto].
Qed.

(** ** What a success reply guarantees *)

Lemma eqb_foot (s : string) :
  (String.eqb s "left" || String.eqb s "right") = true ->
  (s = "left"%string \/ s = "right"%string) /\ lower s = s.
Proof.
  intros H. apply orb_true_iff in H as [H|H]; apply String.eqb_eq in H;
    subst; split; auto.
Qed.

(** X20: a success reply is given only for a request with a foot of
    [left] or [right], a non-empty size and at least one accepted zone key,
    when the foot's input file exists; the file it names is the foot's
    output file, which is then on disk, and the zones it lists are
    distinct upper-cased submitted values. *)
Theorem generated_reply (srv : Server) (form : Form) (files : Files)
    (filename : string) (zones : list string) :
  fst (generate_slippers srv form files) = Generated filename zones ->
  (exists selected_foot,
     foot form = Some selected_foot /\
     (selected_foot = "left"%string \/ selected_foot = "right"%string) /\
     filename = output_filename selected_foot /\
     stl_exists srv (if is_left selected_foot
                     then LEFT_FOOT_STL else RIGHT_FOOT_STL) = true) /\
  (exists s, size form = Some s /\ s <> EmptyString) /\
  zones <> [] /\ NoDup zones /\
  (forall z, In z zones -> exists a, In a (areas form) /\ z = upper a) /\
  is_Some (snd (generate_slippers srv form files) !! filename).
Proof.
  unfold generate_slippers.
  destruct (valid_keys_left srv) as [keys_left|]; [|discriminate].
  destruct (valid_keys_right srv) as [keys_right|]; [|discriminate].
  destruct (is_empty (areas form)); [discriminate|].
  destruct (foot form) as [selected_foot|]; [|discriminate].
  destruct (String.eqb selected_foot "left" || String.eqb selected_foot "right")
    eqn:Hfoot; cbn [negb]; [|discriminate].
  apply eqb_foot in Hfoot as [Hfoot Hlow]. rewrite Hlow.
  destruct (size form) as [[|c s]|]; [discriminate | | discriminate].
  pose proof (map_areas_spec
                (if is_left selected_foot then keys_left else keys_right)
                (areas form) [] [] (NoDup_nil_2 (A:=string)))
    as (Hnd & Hin & _).
  destruct (map_areas _ (areas form) [] []) as [zs unknown].
  cbn [fst snd] in Hnd, Hin.
  destruct zs as [|z0 zs'] eqn:Ez; [discriminate|]. cbn [is_empty].
  destruct (stl_exists srv _) eqn:Hstl; cbn [negb]; [|discriminate].
  destruct (script srv _ _ _ _ _) as [|r]; [discriminate|].
  destruct (Z.eqb (exit_code r) 0); [|discriminate].
  destruct (files_after r !! output_filename selected_foot) as [mesh|] eqn:Hf;
    [|discriminate].
  cbn [fst snd]. intros [= <- <-].
  split; [exists selected_foot; auto|].
  split; [eexists; split; [reflexivity | discriminate]|].
  split; [discriminate|]. split; [assumption|].
  split; [|rewrite Hf; eauto].
  intros z Hz. apply Hin in Hz as [[]|(_ & a & Ha & ->)]. eauto.
Qed.

(** ** The handler in front of the script *)







Lemma generated_reply_witness :
  is_Some (snd (generate_slippers
                  (server_of (demo_env 120 120 one_zone)
                             (demo_env 400 120 two_polygons) (fun _ => true)
                             Some)
                  {| areas := ["heart"%string; "nose"%string];
                     foot := Some "left"%string;
                     size := Some "8"%string |} ∅)
           !! "sole_with_spikes_left.ply"%string).
Proof.
  apply (generated_reply
           (server_of (demo_env 120 120 one_zone)
                      (demo_env 400 120 two_polygons) (fun _ => true) Some)
           {| areas := ["heart"%string; "nose"%string];
              foot := Some "left"%string;
              size := Some "8"%string |} ∅
           "sole_with_spikes_left.ply" ["HEART"%string]).
  vm_compute. reflexivity.
Defined.

(** ** The ray-casting demo *)

Lemma polygons_last (cid : Z) (anns : list Annotation) :
  forall m0 : gmap Z Path,
    fold_left
      (fun (polygons : gmap Z Path) ann =>
         <[category_id ann := segmentation ann]> polygons)
      anns m0 !! cid =
    match last (List.filter (fun ann => Z.eqb (category_id ann) cid) anns) with
    | Some ann => Some (segmentation ann)
    | None => m0 !! cid
    end.
Proof.
  induction anns as [|ann anns IH]; intros m0; [reflexivity|].
  cbn [fold_left List.filter]. rewrite IH.
  destruct (Z.eqb_spec (category_id ann) cid) as [<-|Hne].
  - rewrite lookup_insert_eq.
    destruct (List.filter _ anns) as [|a fl] eqn:F; [reflexivity|].
    change (last (ann :: a :: fl)) with (last (a :: fl)).
    destruct (last (a :: fl)) eqn:L; [reflexivity|].
    apply last_None in L. discriminate.
  - rewrite lookup_insert_ne by assumption. reflexivity.
Qed.

(** X22: the demo's loader keeps one polygon per category id, the one of
    the last annotation of that category, and nothing for a category
    without annotation. *)
Theorem load_coco_annotations_last (coco : Coco) (cid : Z) :
  fst (fst (load_coco_annotations coco)) !! cid =
  segmentation <$>
    last (List.filter (fun ann => Z.eqb (category_id ann) cid)
            (annotations coco)).
Proof.
  unfold load_coco_annotations. cbn [fst].
  rewrite polygons_last, lookup_empty. destruct (last _); reflexivity.
Qed.

Lemma omap_length_le {A B} (f : A -> option B) (l : list A) :
  (length (omap f l) <= length l)%nat.
Proof.
  induction l as [|x l IH]; cbn; [lia|]. destruct (f x); cbn; lia.
Qed.

Lemma omap_length_all {A B} (f : A -> option B) (l : list A) :
  (forall x, In x l -> is_Some (f x)) -> length (omap f l) = length l.
Proof.
  induction l as [|x l IH]; intros H; cbn; [reflexivity|].
  destruct (H x (or_introl eq_refl)) as [y ->]. cbn.
  rewrite IH; [reflexivity|]. intros x' Hx'. apply H. right. assumption.
Qed.

(** X23: with no point the demo's ray casting fails before any rate is
    computed; with points, it returns a success rate between 0 and 100,
    which is 100 when every ray has a hit. *)
Theorem demo_success_rate_bounds (first_hit : Vec3 -> Vec3 -> option Vec3)
    (mesh : Trimesh) (points_2d : list (Q * Q)) (w h : Q) :
  (points_2d = [] ->
   demo_success_rate first_hit mesh points_2d w h = None) /\
  (points_2d <> [] ->
   exists rate,
     demo_success_rate first_hit mesh points_2d w h = Some rate /\
     rate =
       percent (length (demo_locations first_hit mesh points_2d w h))
               (length points_2d) /\
     0 <= rate /\ rate <= 100 /\
     ((forall pt, In pt points_2d ->
         is_Some (first_hit (demo_ray_origin mesh w h pt) down)) ->
      rate == 100)).
Proof.
  unfold demo_success_rate. split; [intros ->; reflexivity|].
  intros Hne. destruct points_2d as [|pt pts]; [congruence|].
  cbn [is_empty length Nat.ltb Nat.leb]. eexists. split; [reflexivity|].
  split; [reflexivity|].
  assert (Hle : (length (demo_locations first_hit mesh (pt :: pts) w h) <=
                 length (pt :: pts))%nat) by apply omap_length_le.
  destruct (percent_bounds _ _ Hle) as [H0 H100]; [cbn; lia|].
  split; [assumption|]. split; [assumption|].
  intros Hall. unfold demo_locations.
  rewrite omap_length_all by assumption. apply percent_all. cbn. lia.
Qed.

Lemma demo_success_rate_bounds_witness :
  exists rate,
    demo_success_rate (fun origin _ => Some origin) (slab 120 120 5)
      (diamond 6) 12 12 = Some rate /\
    rate == 100.
Proof.
  destruct (demo_success_rate_bounds (fun origin _ => Some origin)
              (slab 120 120 5) (diamond 6) 12 12) as [_ H].
  destruct H as (rate & Hr & _ & _ & _ & Hall); [discriminate|].
  exists rate. split; [exact Hr|].
  apply Hall. intros pt _. eexists. reflexivity.
Defined.

(** X24: for the same image point the demo and the pipeline cast their
    rays from the same height, and the pipeline's ray stands 10 mm further
    along x and along y: the demo maps without the margin. *)
Theorem demo_ray_without_margin (mesh : Trimesh) (coco : Coco) (pt : Q * Q) :
  vx (demo_ray_origin mesh (img_width coco) (img_height coco) pt) + 10
    == fst (map_2d_to_3d (mapper_of mesh coco) (fst pt) (snd pt)) /\
  vy (demo_ray_origin mesh (img_width coco) (img_height coco) pt) + 10
    == snd (map_2d_to_3d (mapper_of mesh coco) (fst pt) (snd pt)) /\
  vz (demo_ray_origin mesh (img_width coco) (img_height coco) pt)
    = vz (ray_origin (top_z_of mesh)
            (fst (map_2d_to_3d (mapper_of mesh coco) (fst pt) (snd pt)))
            (snd (map_2d_to_3d (mapper_of mesh coco) (fst pt) (snd pt)))).
Proof.
  unfold demo_ray_origin, map_2d_to_3d, mapper_of, ray_origin, top_z_of,
    ray_clearance.
  cbn [vx vy vz fst snd origin_x origin_y x_scale y_scale height_px].
  split; [ring | split; [ring | reflexivity]].
Qed.

(** ** The further properties on concrete runs *)

Lemma report_counts_add_up_witness :
  total_count
    (report_zone_bumps
       (report_of (demo_env 120 120 one_zone)
          (placement (demo_env 120 120 one_zone) []))) = 3%nat /\
  (0 < 3)%nat.
Proof.
  destruct (report_counts_add_up (demo_env 120 120 one_zone) [])
    as [Hsum Hpos].
  split.
  - rewrite Hsum. vm_compute. reflexivity.
  - apply (Hpos "heart"%string 3%nat). vm_compute. reflexivity.
Defined.

Lemma placement_accuracy_bounds_witness :
  placement_accuracy (demo_env 120 120 one_zone)
    (mapper_of (slab 120 120 5) one_zone)
    (placement (demo_env 120 120 one_zone) [99%Z]) = 0.
Proof.
  destruct (placement_accuracy_bounds (demo_env 120 120 one_zone) [99%Z])
    as [_ H].
  apply H. vm_compute. reflexivity.
Defined.

Lemma dome_arrays_well_formed_witness :
  In (0, 20, 1)%nat (dome_faces 20 10) /\
  (20 < length (dome_vertices bump_radius bump_radius bump_height 20 10))%nat.
Proof.
  assert (Hin : In (0, 20, 1)%nat (dome_faces 20 10))
    by (unfold dome_faces; cbn; left; reflexivity).
  split; [exact Hin|].
  destruct (dome_arrays_well_formed bump_radius bump_radius bump_height 20 10)
    as (_ & _ & H).
  apply (H 0 20 1 Hin)%nat.
Defined.

Lemma min_distance_nearest_witness :
  match min_distance_of [mkVec3 0 0 5; mkVec3 3 4 5] 0 (mkVec3 0 0 5) with
  | Some m => (0 < m)%R
  | None => distance (mkVec3 0 0 5) (mkVec3 3 4 5) = 0%R
  end.
Proof.
  pose proof (min_distance_nearest [mkVec3 0 0 5; mkVec3 3 4 5] 0
                (mkVec3 0 0 5)) as H.
  destruct (min_distance_of [mkVec3 0 0 5; mkVec3 3 4 5] 0 (mkVec3 0 0 5)).
  - apply H.
  - apply (H 1%nat (mkVec3 3 4 5)); [reflexivity | lia].
Defined.
